(** * The chat session orchestrator of [src/components/chat-simple.tsx]

    A shallow embedding of the [Chat] component: its React state, the
    closures it registers (socket handlers, timers, promise continuations)
    and the effects it performs on its collaborators (the socket manager,
    the REST client, [localStorage], the clock and the uuid generator).

    Every callback of the component is a computation in a small monad that
    threads the whole system and can throw, as JavaScript code does:
    state written before a throw stays written. *)

From Stdlib Require Import String Ascii List PeanoNat NArith Bool Lia DecimalString.
Import ListNotations.
Open Scope string_scope.

(** ** JavaScript values *)

Module JS.

(** Text typed by the user or carried by an event is a sequence of
    UTF-16 code units, which is what [String.prototype.trim] inspects. *)
Definition text := list N.

(** WhiteSpace and LineTerminator code points of ECMAScript: the set
    [trim] strips. *)
Definition isWhiteSpace (c : N) : bool :=
  ((c =? 9) || (c =? 10) || (c =? 11) || (c =? 12) || (c =? 13) ||
   (c =? 32) || (c =? 160) || (c =? 5760) ||
   ((8192 <=? c) && (c <=? 8202)) ||
   (c =? 8232) || (c =? 8233) || (c =? 8239) || (c =? 8287) ||
   (c =? 12288) || (c =? 65279))%N.

Fixpoint trimStart (s : text) : text :=
  match s with
  | c :: s' => if isWhiteSpace c then trimStart s' else s
  | [] => []
  end.

Definition trimEnd (s : text) : text := rev (trimStart (rev s)).

Definition trim (s : text) : text := trimEnd (trimStart s).

(** Truthiness: the empty string, [null]/[undefined] and [0] are falsy. *)
Definition truthyText (s : text) : bool :=
  match s with [] => false | _ :: _ => true end.

Definition truthy (s : string) : bool :=
  match s with EmptyString => false | String _ _ => true end.

Definition truthyOpt (o : option string) : bool :=
  match o with Some s => truthy s | None => false end.

(** [a || b] on strings that may be absent. *)
Definition orElse (a : option string) (b : string) : string :=
  match a with
  | Some s => if truthy s then s else b
  | None => b
  end.

Definition orElseNum (a : option N) (b : N) : N :=
  match a with
  | Some n => if (n =? 0)%N then b else n
  | None => b
  end.

Definition orElseOpt (a b : option string) : option string :=
  if truthyOpt a then a else b.

(** Code units of an ASCII literal. *)
Fixpoint lit (s : string) : text :=
  match s with
  | EmptyString => []
  | String c s' => N_of_ascii c :: lit s'
  end.

End JS.

(** ** Data *)

Inductive ConnectionStatus := conn_connecting | conn_connected | conn_error.
Inductive ServerStatus := server_checking | server_online | server_offline.
Inductive AgentStatus := agent_checking | agent_ready | agent_error.

Definition ConnectionStatus_dec (a b : ConnectionStatus) : {a = b} + {a <> b}.
Proof. decide equality. Defined.

Definition ServerStatus_dec (a b : ServerStatus) : {a = b} + {a <> b}.
Proof. decide equality. Defined.

Definition optstring_dec (a b : option string) : {a = b} + {a <> b}.
Proof. decide equality. apply string_dec. Defined.

(** [ChatMessage] (declared in [types/chat-message], used here through
    the fields the component writes). *)
Record ChatMessage := mkChatMessage {
  msg_id : string;
  msg_name : string;
  msg_text : JS.text;
  msg_senderId : option string;
  msg_roomId : option string;
  msg_createdAt : N;
  msg_source : option string;
  msg_thought : option string;
  msg_actions : option (list string);
  msg_isLoading : bool
}.

(** [MessageBroadcastData] (declared in [lib/socketio-manager]): the
    fields the handler reads; those it defaults with [||] may be absent. *)
Record MessageBroadcastData := mkBroadcast {
  bd_id : option string;
  bd_senderName : option string;
  bd_text : JS.text;
  bd_senderId : string;
  bd_roomId : option string;
  bd_channelId : option string;
  bd_createdAt : option N;
  bd_source : option string;
  bd_thought : option string;
  bd_actions : option (list string)
}.

Record ControlMessageData := mkControl { cd_action : string }.

(** What one render of the component sees: the [useState] cells and the
    [q] search parameter. A closure created during a render (an effect
    body, a socket handler, [sendMessage]) reads these values, not the
    live ones. *)
Record State := mkState {
  query : string;
  userEntity : option string;
  messages : list ChatMessage;
  input : JS.text;
  inputDisabled : bool;
  roomId : option string;
  isLoadingHistory : bool;
  isAgentThinking : bool;
  connectionStatus : ConnectionStatus;
  serverStatus : ServerStatus;
  agentStatus : AgentStatus
}.

Inductive TimerAction :=
| CheckConnection   (* setTimeout(checkConnection, 1000) *)
| SendTimeout.      (* the 30 s callback armed by sendMessage *)

(** Calls made on the [SocketIOManager] singleton, in order. *)
Inductive SocketCall :=
| Initialize (user : option string) (server : string)
| On (event : string)
| Off (event : string)
| JoinRoom (room : string)
| LeaveRoom (room : option string)
| JoinChannel (channel server : string)
| LeaveChannel (channel : string)
| SendChannelMessage (messageText : JS.text) (channel source : string).

(** REST requests started by the component, in order. *)
Inductive Request :=
| PingServer
| AddAgentToChannel (channel agent : string)
| GetRoomMemories (agent room : string) (limit : N).

(** The whole system: the live React state, the one ref, the handlers
    currently registered on the socket manager (the render whose closure
    they are), and the collaborators. *)
Record Sys := mkSys {
  st : State;
  initStartedRef : bool;
  handlers : option State;
  now : N;
  uuidsDrawn : nat;
  timers : list (N * TimerAction);
  socketCalls : list SocketCall;
  requests : list Request;
  socketUp : bool;
  storage : option string
}.

(** ** The monad of callbacks *)

Inductive Result (A : Type) := Ok (a : A) | Throw.
Arguments Ok {A} a.
Arguments Throw {A}.

Definition M (A : Type) := Sys -> Result A * Sys.

Definition ret {A} (a : A) : M A := fun s => (Ok a, s).

Definition bind {A B} (m : M A) (k : A -> M B) : M B :=
  fun s => match m s with
           | (Ok a, s') => k a s'
           | (Throw, s') => (Throw, s')
           end.

Definition throw {A} : M A := fun s => (Throw, s).

(** [try { m } catch { h }] *)
Definition tryCatch (m : M unit) (h : M unit) : M unit :=
  fun s => match m s with
           | (Ok a, s') => (Ok a, s')
           | (Throw, s') => h s'
           end.

Definition exec {A} (m : M A) (s : Sys) : Sys := snd (m s).

Declare Scope chat_scope.
Delimit Scope chat_scope with chat.
Notation "x <- m ;; k" := (bind m (fun x => k))
  (at level 61, m at next level, right associativity) : chat_scope.
Notation "m ;; k" := (bind m (fun _ => k))
  (at level 61, right associativity) : chat_scope.
Open Scope chat_scope.

Definition when (b : bool) (m : M unit) : M unit := if b then m else ret tt.

Definition gets {A} (f : Sys -> A) : M A := fun s => (Ok (f s), s).
Definition modify (f : Sys -> Sys) : M unit := fun s => (Ok tt, f s).

(** ** React state setters

    [setX v] writes one [useState] cell of the live state. *)

Definition mapState (f : State -> State) (s : Sys) : Sys :=
  mkSys (f (st s)) (initStartedRef s) (handlers s) (now s)
        (uuidsDrawn s) (timers s) (socketCalls s)
        (requests s) (socketUp s) (storage s).

Definition updState (f : State -> State) : M unit := modify (mapState f).

Definition withUserEntity (v : option string) (r : State) : State :=
  mkState (query r) v (messages r) (input r) (inputDisabled r) (roomId r)
          (isLoadingHistory r) (isAgentThinking r) (connectionStatus r)
          (serverStatus r) (agentStatus r).

Definition withMessages (v : list ChatMessage) (r : State) : State :=
  mkState (query r) (userEntity r) v (input r) (inputDisabled r) (roomId r)
          (isLoadingHistory r) (isAgentThinking r) (connectionStatus r)
          (serverStatus r) (agentStatus r).

Definition withInput (v : JS.text) (r : State) : State :=
  mkState (query r) (userEntity r) (messages r) v (inputDisabled r) (roomId r)
          (isLoadingHistory r) (isAgentThinking r) (connectionStatus r)
          (serverStatus r) (agentStatus r).

Definition withInputDisabled (v : bool) (r : State) : State :=
  mkState (query r) (userEntity r) (messages r) (input r) v (roomId r)
          (isLoadingHistory r) (isAgentThinking r) (connectionStatus r)
          (serverStatus r) (agentStatus r).

Definition withRoomId (v : option string) (r : State) : State :=
  mkState (query r) (userEntity r) (messages r) (input r) (inputDisabled r) v
          (isLoadingHistory r) (isAgentThinking r) (connectionStatus r)
          (serverStatus r) (agentStatus r).

Definition withIsLoadingHistory (v : bool) (r : State) : State :=
  mkState (query r) (userEntity r) (messages r) (input r) (inputDisabled r)
          (roomId r) v (isAgentThinking r) (connectionStatus r)
          (serverStatus r) (agentStatus r).

Definition withIsAgentThinking (v : bool) (r : State) : State :=
  mkState (query r) (userEntity r) (messages r) (input r) (inputDisabled r)
          (roomId r) (isLoadingHistory r) v (connectionStatus r)
          (serverStatus r) (agentStatus r).

Definition withConnectionStatus (v : ConnectionStatus) (r : State) : State :=
  mkState (query r) (userEntity r) (messages r) (input r) (inputDisabled r)
          (roomId r) (isLoadingHistory r) (isAgentThinking r) v
          (serverStatus r) (agentStatus r).

Definition withServerStatus (v : ServerStatus) (r : State) : State :=
  mkState (query r) (userEntity r) (messages r) (input r) (inputDisabled r)
          (roomId r) (isLoadingHistory r) (isAgentThinking r)
          (connectionStatus r) v (agentStatus r).

Definition withAgentStatus (v : AgentStatus) (r : State) : State :=
  mkState (query r) (userEntity r) (messages r) (input r) (inputDisabled r)
          (roomId r) (isLoadingHistory r) (isAgentThinking r)
          (connectionStatus r) (serverStatus r) v.

Definition withQuery (v : string) (r : State) : State :=
  mkState v (userEntity r) (messages r) (input r) (inputDisabled r)
          (roomId r) (isLoadingHistory r) (isAgentThinking r)
          (connectionStatus r) (serverStatus r) (agentStatus r).

Definition setUserEntity v := updState (withUserEntity v).
(** [setMessages] takes the updater form, [setMessages(prev => ...)]. *)
Definition setMessages (f : list ChatMessage -> list ChatMessage) :=
  updState (fun r => withMessages (f (messages r)) r).
Definition setInput v := updState (withInput v).
Definition setInputDisabled v := updState (withInputDisabled v).
Definition setRoomId v := updState (withRoomId v).
Definition setIsLoadingHistory v := updState (withIsLoadingHistory v).
Definition setIsAgentThinking v := updState (withIsAgentThinking v).
Definition setConnectionStatus v := updState (withConnectionStatus v).
Definition setServerStatus v := updState (withServerStatus v).
Definition setAgentStatus v := updState (withAgentStatus v).

(** ** Collaborators

    The socket manager ([lib/socketio-manager]), the REST client
    ([lib/api-client]), [uuid] and the browser are used through their
    interfaces only: the calls the component makes on them are recorded in
    order, and what they answer (the liveness of the socket, the settling
    of a request, an event delivered to an attached handler, the passing
    of time) is an input of the model. *)

(** Timers are kept in firing order: by due time, and among equal due
    times in the order they were armed. *)
Fixpoint schedule (t : N * TimerAction) (q : list (N * TimerAction))
  : list (N * TimerAction) :=
  match q with
  | [] => [t]
  | x :: q' => if (fst x <=? fst t)%N then x :: schedule t q' else t :: q
  end.

Definition setTimeout (a : TimerAction) (ms : N) : M unit :=
  modify (fun s => mkSys (st s) (initStartedRef s) (handlers s) (now s)
                         (uuidsDrawn s) (schedule ((now s + ms)%N, a) (timers s))
                         (socketCalls s) (requests s) (socketUp s) (storage s)).

Definition dateNow : M N := gets now.

Definition socket (c : SocketCall) : M unit :=
  modify (fun s => mkSys (st s) (initStartedRef s) (handlers s) (now s)
                         (uuidsDrawn s) (timers s) (socketCalls s ++ [c])%list
                         (requests s) (socketUp s) (storage s)).

Definition isSocketConnected : M bool := gets socketUp.

Definition setHandlers (h : option State) : M unit :=
  modify (fun s => mkSys (st s) (initStartedRef s) h (now s)
                         (uuidsDrawn s) (timers s) (socketCalls s)
                         (requests s) (socketUp s) (storage s)).

Definition request (q : Request) : M unit :=
  modify (fun s => mkSys (st s) (initStartedRef s) (handlers s) (now s)
                         (uuidsDrawn s) (timers s) (socketCalls s)
                         (requests s ++ [q])%list (socketUp s) (storage s)).

Definition setInitStartedRef (b : bool) : M unit :=
  modify (fun s => mkSys (st s) b (handlers s) (now s)
                         (uuidsDrawn s) (timers s) (socketCalls s)
                         (requests s) (socketUp s) (storage s)).

Definition localStorageGetItem : M (option string) := gets storage.

Definition localStorageSetItem (v : string) : M unit :=
  modify (fun s => mkSys (st s) (initStartedRef s) (handlers s) (now s)
                         (uuidsDrawn s) (timers s) (socketCalls s)
                         (requests s) (socketUp s) (Some v)).

(** ** Constants *)

Definition USER_NAME : string := "User".

(** The default server id and the centralized bus channel. *)
Definition serverId : string := "00000000-0000-0000-0000-000000000000".
Definition centralChannelId : string := "00000000-0000-0000-0000-000000000000".

(** A history fetch settles with the loaded list or rejects; the
    agent-registration [fetch] resolves with an OK response, resolves with
    a non-OK response whose body read succeeds or rejects, or rejects. *)
Inductive FetchOutcome :=
| ResponseOk
| ResponseNotOk (body : option string)
| FetchRejected.

Inductive Event :=
| PingSettled (r : option bool)
| Navigate (q : string)
| RegistrationSettled (r : FetchOutcome)
| SocketStatus (up : bool)
| Elapse (ms : N)
| TimerFires
| MessageBroadcast (data : MessageBroadcastData)
| ControlMessage (data : ControlMessageData)
| MessageComplete
| HistorySettled (r : option (list ChatMessage))
| InputChange (v : JS.text)
| Submit
| SendMessage (messageText : JS.text).

(** ** The component *)

Module Chat.

Section Component.

(** [process.env.NEXT_PUBLIC_AGENT_ID] *)
Variable agentId : string.
(** [CHAT_SOURCE] of [constants]: the host name of the page, or "api". *)
Variable CHAT_SOURCE : string.
(** The values [uuidv4] returns, in the order it is called. *)
Variable uuidSequence : nat -> string.
(** [generateQueryRoomId] of [lib/uuid-utils]. *)
Variable generateQueryRoomId : string -> string -> string.

Definition uuidv4 : M string :=
  n <- gets uuidsDrawn ;;
  modify (fun s => mkSys (st s) (initStartedRef s) (handlers s) (now s)
                         (S (uuidsDrawn s)) (timers s) (socketCalls s)
                         (requests s) (socketUp s) (storage s)) ;;
  ret (uuidSequence n).

(** *** Effects, in the order the component declares them.
    Each body reads the render [r] it was created in. *)

(** Initialize user entity; deps [[]]. *)
Definition identityEffect : M unit :=
  storedEntity <- localStorageGetItem ;;
  if JS.truthyOpt storedEntity then
    setUserEntity storedEntity
  else
    newEntity <- uuidv4 ;;
    localStorageSetItem newEntity ;;
    setUserEntity (Some newEntity).

(** Check server status; deps [[]]. [checkServer] suspends at
    [await pingServer()] and resumes with its outcome: [Some isOnline],
    or [None] when the promise rejects. *)
Definition checkServer_begin : M unit := request PingServer.

Definition awaitPing (r : option bool) : M bool :=
  match r with Some b => ret b | None => throw end.

Definition checkServer_resume (r : option bool) : M unit :=
  tryCatch
    (isOnline <- awaitPing r ;;
     setServerStatus (if isOnline then server_online else server_offline) ;;
     when (negb isOnline) (setConnectionStatus conn_error))
    (setServerStatus server_offline ;;
     setConnectionStatus conn_error).

(** Generate room id; deps [[query, userEntity, agentId]]. *)
Definition roomEffect (r : State) : M unit :=
  match userEntity r with
  | Some user =>
      if negb (JS.truthy user) || negb (JS.truthy agentId) then ret tt
      else if JS.truthy (query r) then
        setRoomId (Some (generateQueryRoomId user (query r)))
      else
        setRoomId (Some (agentId ++ "-" ++ user))
  | None => ret tt
  end.

(** [checkConnection], which re-arms itself every second. *)
Definition checkConnection : M unit :=
  up <- isSocketConnected ;;
  if up then setConnectionStatus conn_connected
  else setTimeout CheckConnection 1000.

(** Step 1 of [initializeConnection], the inner [try]/[catch] around the
    registration request, from the point where [fetch] settles. *)
Definition addAgent_resume (r : FetchOutcome) : M unit :=
  tryCatch
    (match r with
     | ResponseOk => setAgentStatus agent_ready
     | ResponseNotOk body =>
         match body with
         | Some _ => setAgentStatus agent_ready
         | None => throw
         end
     | FetchRejected => throw
     end)
    (setAgentStatus agent_error).

(** [initializeConnection] up to [await fetch(...)] ... *)
Definition initializeConnection_begin : M unit :=
  setConnectionStatus conn_connecting ;;
  setAgentStatus agent_checking ;;
  request (AddAgentToChannel centralChannelId agentId).

(** ... and from there on, inside the outer [try]/[catch]. *)
Definition initializeConnection_resume (r : State) (reg : FetchOutcome)
  : M unit :=
  tryCatch
    (addAgent_resume reg ;;
     socket (Initialize (userEntity r) serverId) ;;
     checkConnection)
    (setConnectionStatus conn_error).

Definition initializeConnection (r : State) (reg : FetchOutcome) : M unit :=
  initializeConnection_begin ;;
  initializeConnection_resume r reg.

(** Initialize socket connection;
    deps [[userEntity, agentId, serverStatus, socketIOManager]]. *)
Definition connectionEffect (r : State) : M unit :=
  if negb (JS.truthyOpt (userEntity r)) || negb (JS.truthy agentId)
     || negb (if ServerStatus_dec (serverStatus r) server_online
              then true else false)
  then ret tt
  else initializeConnection_begin.

(** *** Socket handlers, closures of the render [r] that attached them *)

Definition isAgentMessage (data : MessageBroadcastData) : bool :=
  (if string_dec (bd_senderId data) agentId then true else false)
  || (if optstring_dec (bd_channelId data) (Some centralChannelId)
      then true else false)
  || (if optstring_dec (bd_roomId data) (Some centralChannelId)
      then true else false).

Definition handleMessageBroadcast (r : State) (data : MessageBroadcastData)
  : M unit :=
  if optstring_dec (Some (bd_senderId data)) (userEntity r) then ret tt
  else
    id <- (match bd_id data with
           | Some i => if JS.truthy i then ret i else uuidv4
           | None => uuidv4
           end) ;;
    createdAt <- (match bd_createdAt data with
                  | Some t => if (t =? 0)%N then dateNow else ret t
                  | None => dateNow
                  end) ;;
    let message :=
      mkChatMessage
        id
        (JS.orElse (bd_senderName data)
                   (if isAgentMessage data then "Agent" else "User"))
        (bd_text data)
        (Some (bd_senderId data))
        (JS.orElseOpt (bd_roomId data)
                      (JS.orElseOpt (bd_channelId data) (roomId r)))
        createdAt
        (bd_source data)
        (bd_thought data)
        (bd_actions data)
        false in
    setMessages (fun prev => (prev ++ [message])%list) ;;
    when (isAgentMessage data) (setIsAgentThinking false).

Definition handleControlMessage (data : ControlMessageData) : M unit :=
  if string_dec (cd_action data) "disable_input" then setInputDisabled true
  else if string_dec (cd_action data) "enable_input" then
    setInputDisabled false
  else ret tt.

Definition handleMessageComplete : M unit :=
  setIsAgentThinking false ;;
  setInputDisabled false.

(** Set up socket event listeners;
    deps [[connectionStatus, roomId, socketIOManager]]. *)
Definition listenerEffect (r : State) : M unit :=
  match roomId r with
  | Some room =>
      if negb (if ConnectionStatus_dec (connectionStatus r) conn_connected
               then true else false)
         || negb (JS.truthy room)
      then ret tt
      else
        socket (On "messageBroadcast") ;;
        socket (On "controlMessage") ;;
        socket (On "messageComplete") ;;
        setHandlers (Some r) ;;
        socket (JoinRoom room) ;;
        socket (JoinChannel centralChannelId serverId)
  | None => ret tt
  end.

(** The cleanup function the listener effect returned, if it returned
    one: it is the closure of the render that attached the handlers. *)
Definition listenerCleanup : M unit :=
  h <- gets handlers ;;
  match h with
  | Some r =>
      socket (Off "messageBroadcast") ;;
      socket (Off "controlMessage") ;;
      socket (Off "messageComplete") ;;
      setHandlers None ;;
      socket (LeaveRoom (roomId r)) ;;
      socket (LeaveChannel "00000000-0000-0000-0000-000000000000")
  | None => ret tt
  end.

(** Load message history; deps [[roomId, agentId, connectionStatus]].
    [initStartedRef.current] is read live. *)
Definition historyEffect (r : State) : M unit :=
  started <- gets initStartedRef ;;
  match roomId r with
  | Some room =>
      if negb (JS.truthy room) || negb (JS.truthy agentId)
         || negb (if ConnectionStatus_dec (connectionStatus r) conn_connected
                  then true else false)
         || started
      then ret tt
      else
        setInitStartedRef true ;;
        setIsLoadingHistory true ;;
        request (GetRoomMemories agentId room 50)
  | None => ret tt
  end.

(** [.then(...).catch(...).finally(...)] on the history promise. *)
Definition history_resume (r : option (list ChatMessage)) : M unit :=
  match r with
  | Some loadedMessages => setMessages (fun _ => loadedMessages)
  | None => ret tt
  end ;;
  setIsLoadingHistory false.

(** *** The outbound send path *)

Definition sendTimeoutCallback : M unit :=
  setInputDisabled false ;;
  setIsAgentThinking false.

Definition sendMessage (r : State) (messageText : JS.text) : M unit :=
  if negb (JS.truthyText (JS.trim messageText))
     || negb (JS.truthyOpt (userEntity r))
     || negb (JS.truthyOpt (roomId r))
     || inputDisabled r
     || negb (if ConnectionStatus_dec (connectionStatus r) conn_connected
              then true else false)
  then ret tt
  else
    id <- uuidv4 ;;
    createdAt <- dateNow ;;
    let userMessage :=
      mkChatMessage id USER_NAME messageText (userEntity r) (roomId r)
                    createdAt (Some CHAT_SOURCE) None None false in
    setMessages (fun prev => (prev ++ [userMessage])%list) ;;
    setIsAgentThinking true ;;
    setInputDisabled true ;;
    socket (SendChannelMessage messageText
              "00000000-0000-0000-0000-000000000000" CHAT_SOURCE) ;;
    setTimeout SendTimeout 30000.

Definition handleSubmit (r : State) : M unit :=
  if JS.truthyText (JS.trim (input r)) then
    sendMessage r (JS.trim (input r)) ;;
    setInput []
  else ret tt.

(** *** Timers *)

Definition runTimer (a : TimerAction) : M unit :=
  match a with
  | CheckConnection => checkConnection
  | SendTimeout => sendTimeoutCallback
  end.

Definition setTimers (q : list (N * TimerAction)) : M unit :=
  modify (fun s => mkSys (st s) (initStartedRef s) (handlers s) (now s)
                         (uuidsDrawn s) q (socketCalls s)
                         (requests s) (socketUp s) (storage s)).

(** The next timer runs, once its delay has elapsed. *)
Definition fireTimer : M unit :=
  q <- gets timers ;;
  t <- gets now ;;
  match q with
  | (due, a) :: rest =>
      if (due <=? t)%N then setTimers rest ;; runTimer a else ret tt
  | [] => ret tt
  end.

(** *** Rendering: which effects run after a state change

    After the render [cur] that follows the render [prev], React runs
    the cleanup and then the body of every effect one of whose
    dependencies differs between the two. *)

Definition roomDepsChanged (prev cur : State) : bool :=
  negb (if string_dec (query prev) (query cur) then true else false)
  || negb (if optstring_dec (userEntity prev) (userEntity cur)
           then true else false).

Definition connectionDepsChanged (prev cur : State) : bool :=
  negb (if optstring_dec (userEntity prev) (userEntity cur)
        then true else false)
  || negb (if ServerStatus_dec (serverStatus prev) (serverStatus cur)
           then true else false).

Definition listenerDepsChanged (prev cur : State) : bool :=
  negb (if ConnectionStatus_dec (connectionStatus prev) (connectionStatus cur)
        then true else false)
  || negb (if optstring_dec (roomId prev) (roomId cur)
           then true else false).

Definition historyDepsChanged (prev cur : State) : bool :=
  negb (if optstring_dec (roomId prev) (roomId cur) then true else false)
  || negb (if ConnectionStatus_dec (connectionStatus prev)
                                   (connectionStatus cur)
           then true else false).

Definition runEffects (prev cur : State) : M unit :=
  when (listenerDepsChanged prev cur) listenerCleanup ;;
  when (roomDepsChanged prev cur) (roomEffect cur) ;;
  when (connectionDepsChanged prev cur) (connectionEffect cur) ;;
  when (listenerDepsChanged prev cur) (listenerEffect cur) ;;
  when (historyDepsChanged prev cur) (historyEffect cur).

(** Effects set state, which renders again: [flush n prev] renders up to
    [n] times, starting after the render [prev], and returns the last
    render. *)
Fixpoint flush (n : nat) (prev : State) : M State :=
  match n with
  | O => ret prev
  | S n' =>
      cur <- gets st ;;
      runEffects prev cur ;;
      flush n' cur
  end.

(** Three renders reach a render whose effects have nothing left to do
    ([commit_settled] below). *)
Definition commit (prev : State) : M State := flush 3 prev.

(** *** Events *)

Definition setQuery (q : string) : M unit := updState (withQuery q).

Definition setSocketUp (up : bool) : M unit :=
  modify (fun s => mkSys (st s) (initStartedRef s) (handlers s) (now s)
                         (uuidsDrawn s) (timers s) (socketCalls s)
                         (requests s) up (storage s)).

Definition elapse (ms : N) : M unit :=
  modify (fun s => mkSys (st s) (initStartedRef s) (handlers s)
                         (now s + ms)%N
                         (uuidsDrawn s) (timers s) (socketCalls s)
                         (requests s) (socketUp s) (storage s)).

(** A socket event reaches the handlers registered with [on] and not yet
    removed with [off], if any. *)
Definition emit (h : State -> M unit) : M unit :=
  attached <- gets handlers ;;
  match attached with
  | Some r => h r
  | None => ret tt
  end.

Definition dispatch (ev : Event) : M unit :=
  match ev with
  | PingSettled r => checkServer_resume r
  | Navigate q => setQuery q
  | RegistrationSettled reg =>
      cur <- gets st ;; initializeConnection_resume cur reg
  | SocketStatus up => setSocketUp up
  | Elapse ms => elapse ms
  | TimerFires => fireTimer
  | MessageBroadcast data => emit (fun r => handleMessageBroadcast r data)
  | ControlMessage data => emit (fun _ => handleControlMessage data)
  | MessageComplete => emit (fun _ => handleMessageComplete)
  | HistorySettled r => history_resume r
  | InputChange v => setInput v
  | Submit => cur <- gets st ;; handleSubmit cur
  | SendMessage messageText => cur <- gets st ;; sendMessage cur messageText
  end.

(** One event: its callback runs against the current render, then the
    component renders and its effects run. Without an agent id the
    component renders the configuration error and wires nothing. *)
Definition step (ev : Event) (s : Sys) : Sys :=
  if JS.truthy agentId then
    exec (commit (st s)) (exec (dispatch ev) s)
  else s.

Definition run (evs : list Event) (s : Sys) : Sys :=
  fold_left (fun s ev => step ev s) evs s.

(** *** Mounting *)

Definition initialState (q : string) : State :=
  mkState q None [] [] false None true false
          conn_connecting server_checking agent_checking.

Definition mountEffects (r : State) : M unit :=
  identityEffect ;;
  when (JS.truthy agentId)
    (checkServer_begin ;;
     roomEffect r ;;
     connectionEffect r ;;
     listenerEffect r ;;
     historyEffect r).

(** The system after the component has mounted with search parameter
    [q], stored identity [stored], at time [t0]. *)
Definition mount (q : string) (stored : option string) (t0 : N) : Sys :=
  let r0 := initialState q in
  let s0 := mkSys r0 false None t0 0 [] [] [] false stored in
  let s1 := exec (mountEffects r0) s0 in
  if JS.truthy agentId then exec (commit r0) s1 else s1.

Definition reachable (s : Sys) : Prop :=
  exists q stored t0 evs, s = run evs (mount q stored t0).

(** The preconditions [sendMessage] checks, on the render it closes
    over. *)
Definition canSend (r : State) (messageText : JS.text) : bool :=
  JS.truthyText (JS.trim messageText)
  && JS.truthyOpt (userEntity r)
  && JS.truthyOpt (roomId r)
  && negb (inputDisabled r)
  && (if ConnectionStatus_dec (connectionStatus r) conn_connected
      then true else false).

(** ** Reasoning about callbacks *)

(** [m] returns, it does not throw. *)
Definition returns {A} (m : M A) : Prop :=
  forall s, exists a, fst (m s) = Ok a.

(** [m] keeps the invariant [P], whether it returns or throws. *)
Definition preserves {A} (P : Sys -> Prop) (m : M A) : Prop :=
  forall s, P s -> P (snd (m s)).

(** Two renders between which no effect has a changed dependency. *)
Definition sameDeps (a b : State) : Prop :=
  query a = query b /\ userEntity a = userEntity b /\
  serverStatus a = serverStatus b /\
  connectionStatus a = connectionStatus b /\ roomId a = roomId b.

(** The ids of the stored messages, in display order. *)
Definition ids (r : State) : list string := map msg_id (messages r).

(** *** What the component renders *)

(** The banner [renderConnectionStatus] returns; [None] is its final
    [return null]. *)
Inductive Banner :=
| CheckingServer
| ServerOffline
| Connecting (statusText : string)
| ConnectionError
| ConnectedToAgent.

Definition renderConnectionStatus (r : State) : option Banner :=
  match serverStatus r with
  | server_checking => Some CheckingServer
  | server_offline => Some ServerOffline
  | server_online =>
      match connectionStatus r with
      | conn_connecting =>
          Some (Connecting
                  match agentStatus r with
                  | agent_checking => "Setting up agent participation..."
                  | agent_ready => "Connecting to agent..."
                  | agent_error => "Connecting (agent setup failed)..."
                  end)
      | conn_error => Some ConnectionError
      | conn_connected => Some ConnectedToAgent
      end
  end.

(** The message area: the history spinner, or the transcript with the
    thinking indicator after it. *)
Inductive MessageArea :=
| LoadingHistory
| Transcript (shown : list ChatMessage) (thinking : bool).

Definition messageArea (r : State) : MessageArea :=
  if isLoadingHistory r then LoadingHistory
  else Transcript (messages r) (isAgentThinking r).

(** The [isLoading] and [placeholder] props of the textarea. *)
Definition textareaLoading (r : State) : bool :=
  isAgentThinking r || inputDisabled r
  || negb (if ConnectionStatus_dec (connectionStatus r) conn_connected
           then true else false).

Definition textareaPlaceholder (r : State) : string :=
  if ConnectionStatus_dec (connectionStatus r) conn_connected
  then "Type your message..." else "Connecting...".

(** The room id the room effect derives from a query and an identity. *)
Definition roomFor (q : string) (u : option string) : option string :=
  match u with
  | Some user =>
      if JS.truthy user && JS.truthy agentId then
        Some (if JS.truthy q then generateQueryRoomId user q
              else (agentId ++ "-" ++ user)%string)
      else None
  | None => None
  end.

(** The room id is the one derived from the query [q] and the identity
    [u], which are the current ones. *)
Definition roomDerivedFor (q : string) (u : option string) (s : Sys) : Prop :=
  query (st s) = q /\ userEntity (st s) = u /\ roomId (st s) = roomFor q u.

End Component.

End Chat.

Import Chat.

(** ** Invariants *)

(** The input is locked. *)
Definition inputLocked (s : Sys) : Prop := inputDisabled (st s) = true.

(** The identity every closure in the system was created with: the live
    state and the attached handlers agree on [u]. *)
Definition identityIs (u : option string) (s : Sys) : Prop :=
  userEntity (st s) = u /\
  forall r, handlers s = Some r -> userEntity r = u.

Definition isHistoryRequest (q : Request) : bool :=
  match q with GetRoomMemories _ _ _ => true | _ => false end.

(** The number of history fetches started so far. *)
Definition historyFetches (s : Sys) : nat :=
  length (filter isHistoryRequest (requests s)).

(** The latch [initStartedRef] counts the history fetches: none while it
    is down, one once it is up. *)
Definition latchCounts (s : Sys) : Prop :=
  historyFetches s = if initStartedRef s then 1 else 0.

(** The dependencies no effect writes, and those only the room and
    connection effects write. *)
Definition inputsAre (q : string) (u : option string) (v : ServerStatus)
           (s : Sys) : Prop :=
  query (st s) = q /\ userEntity (st s) = u /\ serverStatus (st s) = v.

Definition sessionIs (c : ConnectionStatus) (room : option string)
           (s : Sys) : Prop :=
  connectionStatus (st s) = c /\ roomId (st s) = room.

(** The timer [t] is pending. *)
Definition pending (t : N * TimerAction) (s : Sys) : Prop := In t (timers s).



(** The listener effect has run for the render [cur]: handlers are
    attached exactly when [cur] is connected with a room id, and then by
    a render that is connected, with that room id. *)
Definition attachedFor (cur : State) (h : option State) : Prop :=
  match h with
  | Some r =>
      connectionStatus r = conn_connected /\ roomId r = roomId cur /\
      connectionStatus cur = conn_connected /\
      JS.truthyOpt (roomId cur) = true
  | None =>
      connectionStatus cur <> conn_connected \/
      JS.truthyOpt (roomId cur) = false
  end.

(** The rooms and channels the component is in, by the join and leave
    calls it has made so far. *)
Definition joinedRooms (calls : list SocketCall) : list string :=
  fold_left (fun rooms c =>
               match c with
               | JoinRoom room => room :: remove string_dec room rooms
               | LeaveRoom (Some room) => remove string_dec room rooms
               | _ => rooms
               end) calls [].

Definition joinedChannels (calls : list SocketCall) : list string :=
  fold_left (fun channels c =>
               match c with
               | JoinChannel channel _ =>
                   channel :: remove string_dec channel channels
               | LeaveChannel channel => remove string_dec channel channels
               | _ => channels
               end) calls [].

(** The component is in the room of its attached handlers and in the
    central channel, or in no room and no channel. *)
Definition membershipOk (s : Sys) : Prop :=
  match handlers s with
  | Some r =>
      exists room, roomId r = Some room /\
                   joinedRooms (socketCalls s) = [room] /\
                   joinedChannels (socketCalls s) = [centralChannelId]
  | None =>
      joinedRooms (socketCalls s) = [] /\
      joinedChannels (socketCalls s) = []
  end.

(** No handler is attached and the component is in no room or channel. *)
Definition detached (s : Sys) : Prop :=
  handlers s = None /\
  joinedRooms (socketCalls s) = [] /\ joinedChannels (socketCalls s) = [].

(** [n] rounds of waiting a second and letting the timer fire. *)
Fixpoint polls (n : nat) : list Event :=
  match n with
  | O => []
  | S n' => Elapse 1000 :: TimerFires :: polls n'
  end.

Definition isRegistration (q : Request) : bool :=
  match q with AddAgentToChannel _ _ => true | _ => false end.

(** The registration requests started so far. *)
Definition registrations (s : Sys) : list Request :=
  filter isRegistration (requests s).

(** ** A concrete deployment, for examples *)

Module Sample.

Definition agent : string := "2ed1ddb3-67d2-09c9-9eed-c7791ee7bb54".
Definition source : string := "localhost".
Definition uuids (n : nat) : string :=
  "uuid-" ++ NilEmpty.string_of_uint (Nat.to_uint n).
Definition roomOf (user q : string) : string := "room/" ++ user ++ "/" ++ q.

Definition step := step agent source uuids roomOf.
Definition run := run agent source uuids roomOf.

(** First visit, no query, at time 0. *)
Definition mounted : Sys := mount agent uuids roomOf "" None 0.

(** The server answers the ping, registration succeeds, the socket comes
    up and the next poll sees it. *)
Definition connectTrace : list Event :=
  [PingSettled (Some true); RegistrationSettled ResponseOk;
   SocketStatus true; Elapse 1000; TimerFires].

Definition connected : Sys := run connectTrace mounted.

Definition ping : JS.text := JS.lit "ping".

(** A reply of the agent on the central channel, with a server id. *)
Definition reply : MessageBroadcastData :=
  mkBroadcast (Some "m-1") None (JS.lit "pong") agent None
              (Some centralChannelId) (Some 1700000000000%N) (Some "agent")
              None None.

(** The echo of our own message. *)
Definition echo : MessageBroadcastData :=
  mkBroadcast (Some "m-0") (Some "User") ping "uuid-0" None
              (Some centralChannelId) (Some 1700000000000%N) (Some source)
              None None.

(** The state after our first message went out. *)
Definition waiting : Sys := run [SendMessage ping] connected.

(** The render whose handlers are attached once connected. *)
Definition attached : State :=
  match handlers connected with
  | Some r => r
  | None => initialState ""
  end.

End Sample.

(** * The constants of [constants] *)

Module Constants.

Definition dropChars (n : nat) (s : string) : string :=
  substring n (String.length s - n) s.

(** [s.replace(/https?:\/\//, '')]: the first place where [http://] or
    [https://] occurs is cut out; the rest stays, later occurrences
    included. *)
Fixpoint replaceScheme (s : string) : string :=
  if String.prefix "http://" s then dropChars 7 s
  else if String.prefix "https://" s then dropChars 8 s
  else match s with
       | EmptyString => EmptyString
       | String c s' => String c (replaceScheme s')
       end.

(** [CHAT_SOURCE], from [window.location.hostname] when there is a
    window and from [process.env.NEXT_PUBLIC_APP_URL] otherwise; an absent
    value is [None]. *)
Definition CHAT_SOURCE (window : option string) (appUrl : option string)
  : string :=
  match window with
  | Some hostname => JS.orElse (Some hostname) "api"
  | None => JS.orElse (option_map replaceScheme appUrl) "api"
  end.

End Constants.

(** * Loading the documentation ([eliza.ts]) *)

Module Docs.

Local Open Scope list_scope.

(** A path is the list of its segments; [path.join(dir, name)] appends
    one. *)
Definition Path := list string.

(** What [readdirSync(dir, { withFileTypes: true })] finds: an entry that
    is not a directory, or a directory with what listing it gives in turn,
    [None] when listing it throws. *)
#[local] Set Warnings "-register-all".

Inductive Dirent :=
| FileEntry (name : string)
| DirEntry (name : string) (listing : option (list Dirent)).

Definition direntName (d : Dirent) : string :=
  match d with FileEntry n => n | DirEntry n _ => n end.

Definition isDirectory (d : Dirent) : bool :=
  match d with FileEntry _ => false | DirEntry _ _ => true end.

(** [s.endsWith(ext)] *)
Definition endsWith (s ext : string) : bool :=
  (String.length ext <=? String.length s)%nat
  && String.eqb
       (substring (String.length s - String.length ext) (String.length ext) s)
       ext.

(** The [files] of one directory: its entries that are not directories
    and whose name ends with one of the extensions, as paths. *)
Definition filesIn (extensions : list string) (dir : Path)
           (dirents : list Dirent) : list Path :=
  map (fun d => dir ++ [direntName d])
      (filter (fun d => existsb (fun ext => endsWith (direntName d) ext)
                                extensions)
              (filter (fun d => negb (isDirectory d)) dirents)).

(** What the entry [d] of [dir] contributes to [subFiles]: the files of
    the folder it is, if it is one. *)
Fixpoint subFilesOf (extensions : list string) (dir : Path) (d : Dirent)
  : list Path :=
  match d with
  | FileEntry _ => []
  | DirEntry name listing =>
      match listing with
      | None => []
      | Some dirents =>
          filesIn extensions (dir ++ [name]) dirents
          ++ flat_map (subFilesOf extensions (dir ++ [name])) dirents
      end
  end.

(** [getFilesRecursively(dir, extensions)], given what listing [dir]
    gives. *)
Definition getFilesRecursively (dir : Path) (listing : option (list Dirent))
           (extensions : list string) : list Path :=
  match listing with
  | None => []
  | Some dirents =>
      filesIn extensions dir dirents
      ++ flat_map (subFilesOf extensions dir) dirents
  end.

(** [loadDocumentation(directoryPath)], given the resolved path, its
    listing and what [readFileSync] returns for a path ([None] when it
    throws). *)
Definition loadDocumentation (readFileSync : Path -> option string)
           (basePath : Path) (listing : option (list Dirent)) : list string :=
  filter (fun content => negb (String.length content =? 0)%nat)
         (map (fun filePath =>
                 match readFileSync filePath with
                 | Some content => content
                 | None => EmptyString
                 end)
              (getFilesRecursively basePath listing [".md"; ".mdx"])).

(** A file found at the relative path [rel] (its name last) below a
    listing, going through directories that can be listed. *)
Inductive fileAt : list Dirent -> list string -> Prop :=
| fileHere (dirents : list Dirent) (name : string) :
    In (FileEntry name) dirents -> fileAt dirents [name]
| fileBelow (dirents sub : list Dirent) (name : string) (rel : list string) :
    In (DirEntry name (Some sub)) dirents -> fileAt sub rel ->
    fileAt dirents (name :: rel).

(** The name a relative path ends with has one of the extensions. *)
Definition hasExtension (extensions : list string) (rel : list string)
  : Prop :=
  existsb (fun ext => endsWith (last rel EmptyString) ext) extensions = true.

(** Induction over an entry and the entries below it. *)
Section DirentInduction.

Variable P : Dirent -> Prop.
Hypothesis onFile : forall name, P (FileEntry name).
Hypothesis onUnreadable : forall name, P (DirEntry name None).
Hypothesis onDir :
  forall name dirents, Forall P dirents -> P (DirEntry name (Some dirents)).

Fixpoint Dirent_induction (d : Dirent) : P d :=
  match d with
  | FileEntry name => onFile name
  | DirEntry name None => onUnreadable name
  | DirEntry name (Some dirents) =>
      onDir name dirents
        ((fix all (l : list Dirent) : Forall P l :=
            match l with
            | [] => Forall_nil P
            | x :: l' => Forall_cons x (Dirent_induction x) (all l')
            end) dirents)
  end.

End DirentInduction.

End Docs.

(** * The session key of [app/api/chat-sessions/route.ts] *)

Module Sessions.

Local Open Scope list_scope.

(** [s.split(sep)] for a separator of one code unit: the pieces between
    the separators, one piece for a text without any. *)
Fixpoint split (sep : N) (s : JS.text) : list JS.text :=
  match s with
  | [] => [[]]
  | c :: s' =>
      if (c =? sep)%N then [] :: split sep s'
      else match split sep s' with
           | piece :: pieces => (c :: piece) :: pieces
           | [] => [[c]]
           end
  end.

(** [pieces.join(sep)] *)
Fixpoint join (sep : N) (pieces : list JS.text) : JS.text :=
  match pieces with
  | [] => []
  | [piece] => piece
  | piece :: pieces' => piece ++ sep :: join sep pieces'
  end.

(** The class [[a-z0-9\s]]. *)
Definition isKeyChar (c : N) : bool :=
  ((97 <=? c) && (c <=? 122) || (48 <=? c) && (c <=? 57))%N
  || JS.isWhiteSpace c.

Section SessionKey.

(** [String.prototype.toLowerCase] *)
Variable toLowerCase : JS.text -> JS.text.

(** The session key the fallback derives from the content of a message:
    [content.toLowerCase().replace(/[^a-z0-9\s]/g, '').split(' ')
     .slice(0, 4).join('-') || 'general'] *)
Definition sessionKey (content : JS.text) : JS.text :=
  let key :=
    join 45 (firstn 4 (split 32 (filter isKeyChar (toLowerCase content)))) in
  if JS.truthyText key then key else JS.lit "general".

End SessionKey.

End Sessions.

(** * Properties *)

(** ** Lists *)

Lemma NoDup_snoc {A} (l : list A) (x : A) :
  NoDup (l ++ [x]) <-> NoDup l /\ ~ In x l.
Proof.
  induction l as [|y l IH]; simpl.
  - split.
    + intros _. split; [constructor | intros []].
    + intros _. constructor; [intros [] | constructor].
  - rewrite !NoDup_cons_iff, IH, in_app_iff. simpl. split.
    + intros (H1 & H2 & H3). repeat split; auto.
      intros [E|H]; [subst; apply H1; right; left; reflexivity | auto].
    + intros ((H1 & H2) & H3). repeat split; auto.
      intros [H|[E|[]]]; [auto | subst; apply H3; left; reflexivity].
Qed.

Section ChatProperties.

Local Open Scope list_scope.

Variable agentId : string.
Variable CHAT_SOURCE : string.
Variable uuidSequence : nat -> string.
Variable generateQueryRoomId : string -> string -> string.

#[local] Abbreviation uuidv4 := (Chat.uuidv4 uuidSequence).
#[local] Abbreviation identityEffect := (Chat.identityEffect uuidSequence).
#[local] Abbreviation roomEffect := (Chat.roomEffect agentId generateQueryRoomId).
#[local] Abbreviation initializeConnection_begin :=
  (Chat.initializeConnection_begin agentId).
#[local] Abbreviation initializeConnection := (Chat.initializeConnection agentId).
#[local] Abbreviation connectionEffect := (Chat.connectionEffect agentId).
#[local] Abbreviation isAgentMessage := (Chat.isAgentMessage agentId).
#[local] Abbreviation handleMessageBroadcast :=
  (Chat.handleMessageBroadcast agentId uuidSequence).
#[local] Abbreviation historyEffect := (Chat.historyEffect agentId).
#[local] Abbreviation sendMessage := (Chat.sendMessage CHAT_SOURCE uuidSequence).
#[local] Abbreviation handleSubmit := (Chat.handleSubmit CHAT_SOURCE uuidSequence).
#[local] Abbreviation runEffects := (Chat.runEffects agentId generateQueryRoomId).
#[local] Abbreviation flush := (Chat.flush agentId generateQueryRoomId).
#[local] Abbreviation commit := (Chat.commit agentId generateQueryRoomId).
#[local] Abbreviation dispatch := (Chat.dispatch agentId CHAT_SOURCE uuidSequence).
#[local] Abbreviation step :=
  (Chat.step agentId CHAT_SOURCE uuidSequence generateQueryRoomId).
#[local] Abbreviation run :=
  (Chat.run agentId CHAT_SOURCE uuidSequence generateQueryRoomId).
#[local] Abbreviation mountEffects :=
  (Chat.mountEffects agentId uuidSequence generateQueryRoomId).
#[local] Abbreviation mount := (Chat.mount agentId uuidSequence generateQueryRoomId).
#[local] Abbreviation roomFor := (Chat.roomFor agentId generateQueryRoomId).
#[local] Abbreviation roomDerivedFor :=
  (Chat.roomDerivedFor agentId generateQueryRoomId).
#[local] Abbreviation reachable :=
  (Chat.reachable agentId CHAT_SOURCE uuidSequence generateQueryRoomId).

Lemma exec_bind_ok {A B} (m : M A) (k : A -> M B) (s s' : Sys) (a : A) :
  m s = (Ok a, s') -> exec (bind m k) s = exec (k a) s'.
Proof. intros H. unfold exec, bind. rewrite H. reflexivity. Qed.

Lemma preserves_ret {A} (P : Sys -> Prop) (a : A) : preserves P (ret a).
Proof. intros s H; exact H. Qed.

Lemma preserves_throw {A} (P : Sys -> Prop) : preserves P (@throw A).
Proof. intros s H; exact H. Qed.

Lemma preserves_gets {A} (P : Sys -> Prop) (f : Sys -> A) :
  preserves P (gets f).
Proof. intros s H; exact H. Qed.

Lemma preserves_modify (P : Sys -> Prop) (f : Sys -> Sys) :
  (forall s, P s -> P (f s)) -> preserves P (modify f).
Proof. intros Hf s H; apply Hf, H. Qed.

Lemma preserves_bind {A B} (P : Sys -> Prop) (m : M A) (k : A -> M B) :
  preserves P m -> (forall a, preserves P (k a)) -> preserves P (bind m k).
Proof.
  intros Hm Hk s H. unfold bind.
  specialize (Hm s H). destruct (m s) as [[a|] s']; simpl in *.
  - apply Hk, Hm.
  - exact Hm.
Qed.

(** A value read from the system comes from a system where [P] holds. *)
Lemma preserves_gets_bind {A B} (P : Sys -> Prop) (f : Sys -> A)
      (k : A -> M B) :
  (forall s0, P s0 -> preserves P (k (f s0))) ->
  preserves P (bind (gets f) k).
Proof. intros Hk s H. unfold bind, gets. apply (Hk s H s H). Qed.

Lemma preserves_tryCatch (P : Sys -> Prop) (m h : M unit) :
  preserves P m -> preserves P h -> preserves P (tryCatch m h).
Proof.
  intros Hm Hh s H. unfold tryCatch.
  specialize (Hm s H). destruct (m s) as [[a|] s']; simpl in *.
  - exact Hm.
  - apply Hh, Hm.
Qed.

Lemma preserves_when (P : Sys -> Prop) (b : bool) (m : M unit) :
  preserves P m -> preserves P (when b m).
Proof. intros Hm. destruct b; [exact Hm | apply preserves_ret]. Qed.

(** ** Rendering with nothing to do *)

Lemma roomDepsChanged_same (a b : State) :
  sameDeps a b -> roomDepsChanged a b = false.
Proof.
  intros (Hq & Hu & _). unfold roomDepsChanged. rewrite Hq, Hu.
  destruct (string_dec (query b) (query b)); [|congruence].
  destruct (optstring_dec (userEntity b) (userEntity b)); [|congruence].
  reflexivity.
Qed.

Lemma connectionDepsChanged_same (a b : State) :
  sameDeps a b -> connectionDepsChanged a b = false.
Proof.
  intros (_ & Hu & Hs & _). unfold connectionDepsChanged. rewrite Hu, Hs.
  destruct (optstring_dec (userEntity b) (userEntity b)); [|congruence].
  destruct (ServerStatus_dec (serverStatus b) (serverStatus b)); [|congruence].
  reflexivity.
Qed.

Lemma listenerDepsChanged_same (a b : State) :
  sameDeps a b -> listenerDepsChanged a b = false.
Proof.
  intros (_ & _ & _ & Hc & Hr). unfold listenerDepsChanged. rewrite Hc, Hr.
  destruct (ConnectionStatus_dec (connectionStatus b) (connectionStatus b));
    [|congruence].
  destruct (optstring_dec (roomId b) (roomId b)); [|congruence].
  reflexivity.
Qed.

Lemma historyDepsChanged_same (a b : State) :
  sameDeps a b -> historyDepsChanged a b = false.
Proof.
  intros (_ & _ & _ & Hc & Hr). unfold historyDepsChanged. rewrite Hc, Hr.
  destruct (ConnectionStatus_dec (connectionStatus b) (connectionStatus b));
    [|congruence].
  destruct (optstring_dec (roomId b) (roomId b)); [|congruence].
  reflexivity.
Qed.

Lemma sameDeps_refl (a : State) : sameDeps a a.
Proof. repeat split. Qed.

Lemma runEffects_same (prev cur : State) (s : Sys) :
  sameDeps prev cur -> runEffects prev cur s = (Ok tt, s).
Proof.
  intros H. unfold Chat.runEffects.
  rewrite (roomDepsChanged_same _ _ H), (connectionDepsChanged_same _ _ H),
    (listenerDepsChanged_same _ _ H), (historyDepsChanged_same _ _ H).
  reflexivity.
Qed.

(** When the state an event left has the dependencies of the render
    before it, rendering runs no effect. *)
Lemma flush_same (n : nat) (prev : State) (s : Sys) :
  sameDeps prev (st s) -> exec (flush n prev) s = s.
Proof.
  revert prev. induction n as [|n IH]; intros prev H; [reflexivity|].
  unfold exec in *. simpl. unfold bind at 1. unfold gets at 1.
  unfold bind at 1. rewrite (runEffects_same _ _ _ H).
  apply IH, sameDeps_refl.
Qed.

Lemma step_same (ev : Event) (s : Sys) :
  JS.truthy agentId = true ->
  sameDeps (st s) (st (exec (dispatch ev) s)) ->
  step ev s = exec (dispatch ev) s.
Proof.
  intros Ha H. unfold Chat.step. rewrite Ha.
  unfold Chat.commit. apply flush_same, H.
Qed.


(** ** The send path *)

Lemma sendMessage_guard (r : State) (messageText : JS.text) :
  negb (JS.truthyText (JS.trim messageText))
  || negb (JS.truthyOpt (userEntity r))
  || negb (JS.truthyOpt (roomId r))
  || inputDisabled r
  || negb (if ConnectionStatus_dec (connectionStatus r) conn_connected
           then true else false)
  = negb (canSend r messageText).
Proof.
  unfold canSend.
  destruct (JS.truthyText (JS.trim messageText)),
    (JS.truthyOpt (userEntity r)), (JS.truthyOpt (roomId r)),
    (inputDisabled r),
    (ConnectionStatus_dec (connectionStatus r) conn_connected); reflexivity.
Qed.

Lemma sendMessage_blocked (r : State) (messageText : JS.text) (s : Sys) :
  canSend r messageText = false -> sendMessage r messageText s = (Ok tt, s).
Proof.
  intros H. unfold Chat.sendMessage.
  rewrite sendMessage_guard, H. reflexivity.
Qed.

Lemma sendMessage_sent (r : State) (messageText : JS.text) (s : Sys) :
  canSend r messageText = true ->
  sendMessage r messageText s =
  (Ok tt,
   mkSys
     (withInputDisabled true
        (withIsAgentThinking true
           (withMessages
              (messages (st s) ++
               [mkChatMessage (uuidSequence (uuidsDrawn s)) USER_NAME
                  messageText (userEntity r) (roomId r) (now s)
                  (Some CHAT_SOURCE) None None false])
              (st s))))
     (initStartedRef s) (handlers s) (now s) (S (uuidsDrawn s))
     (schedule ((now s + 30000)%N, SendTimeout) (timers s))
     (socketCalls s ++
      [SendChannelMessage messageText centralChannelId CHAT_SOURCE])
     (requests s) (socketUp s) (storage s)).
Proof.
  intros H. unfold Chat.sendMessage.
  rewrite sendMessage_guard, H. destruct s. reflexivity.
Qed.

Lemma canSend_false_iff (r : State) (messageText : JS.text) :
  canSend r messageText = false <->
  JS.trim messageText = [] \/ JS.truthyOpt (userEntity r) = false \/
  JS.truthyOpt (roomId r) = false \/ inputDisabled r = true \/
  connectionStatus r <> conn_connected.
Proof.
  unfold canSend.
  destruct (JS.trim messageText) as [|c t]; simpl.
  - split; auto.
  - destruct (JS.truthyOpt (userEntity r)); simpl; [|split; auto].
    destruct (JS.truthyOpt (roomId r)); simpl; [|split; auto].
    destruct (inputDisabled r); simpl; [split; auto|].
    destruct (ConnectionStatus_dec (connectionStatus r) conn_connected).
    + split; [discriminate|].
      intros [H|[H|[H|[H|H]]]]; try discriminate; contradiction.
    + split; auto 6.
Qed.


(** ** The socket handlers *)

Lemma handleMessageBroadcast_own (r : State) (data : MessageBroadcastData)
      (s : Sys) :
  userEntity r = Some (bd_senderId data) ->
  handleMessageBroadcast r data s = (Ok tt, s).
Proof.
  intros H. unfold Chat.handleMessageBroadcast.
  destruct (optstring_dec (Some (bd_senderId data)) (userEntity r));
    [reflexivity | congruence].
Qed.

(** What a broadcast of somebody else does, in full. *)
Lemma handleMessageBroadcast_other (r : State) (data : MessageBroadcastData)
      (s : Sys) :
  Some (bd_senderId data) <> userEntity r ->
  handleMessageBroadcast r data s =
  (Ok tt,
   mkSys
     ((if isAgentMessage data then withIsAgentThinking false else fun x => x)
        (withMessages
           (messages (st s) ++
            [mkChatMessage
               (JS.orElse (bd_id data) (uuidSequence (uuidsDrawn s)))
               (JS.orElse (bd_senderName data)
                          (if isAgentMessage data then "Agent" else "User"))
               (bd_text data)
               (Some (bd_senderId data))
               (JS.orElseOpt (bd_roomId data)
                             (JS.orElseOpt (bd_channelId data) (roomId r)))
               (JS.orElseNum (bd_createdAt data) (now s))
               (bd_source data) (bd_thought data) (bd_actions data) false])
           (st s)))
     (initStartedRef s) (handlers s) (now s)
     (if JS.truthyOpt (bd_id data) then uuidsDrawn s else S (uuidsDrawn s))
     (timers s) (socketCalls s) (requests s) (socketUp s) (storage s)).
Proof.
  intros H. unfold Chat.handleMessageBroadcast.
  destruct (optstring_dec (Some (bd_senderId data)) (userEntity r));
    [congruence|].
  destruct s as [r0 ? ? ? ? ? ? ? ? ?]. destruct r0.
  destruct (bd_id data) as [ [ | c i] | ], (bd_createdAt data) as [ [ | t] | ],
    (Chat.isAgentMessage agentId data) eqn:E;
    cbv [bind ret gets modify when uuidv4 Chat.uuidv4 dateNow setMessages
         setIsAgentThinking updState mapState JS.orElse JS.orElseNum
         JS.truthyOpt JS.truthy N.eqb st messages uuidsDrawn now
         initStartedRef handlers timers socketCalls requests socketUp storage
         withMessages withIsAgentThinking query userEntity input inputDisabled
         roomId isLoadingHistory connectionStatus serverStatus agentStatus
         isAgentThinking];
    rewrite ?E; reflexivity.
Qed.

Lemma isAgentMessage_true_iff (data : MessageBroadcastData) :
  isAgentMessage data = true <->
  bd_senderId data = agentId \/
  bd_channelId data = Some centralChannelId \/
  bd_roomId data = Some centralChannelId.
Proof.
  unfold Chat.isAgentMessage.
  destruct (string_dec (bd_senderId data) agentId),
    (optstring_dec (bd_channelId data) (Some centralChannelId)),
    (optstring_dec (bd_roomId data) (Some centralChannelId));
    simpl; (split; [intros H; auto; discriminate | intros [H|[H|H]]; congruence]).
Qed.

Lemma handleMessageComplete_run (s : Sys) :
  handleMessageComplete s =
  (Ok tt,
   mapState (fun r => withInputDisabled false (withIsAgentThinking false r)) s).
Proof. reflexivity. Qed.


(** ** Invariants of the callbacks *)

Ltac head_of t := lazymatch t with ?f _ => head_of f | _ => t end.

(** Takes a callback apart along its control flow; [leaf] proves that a
    single write keeps the invariant, and the hints of [preserved] are
    callbacks already dealt with as a whole. *)
Create HintDb preserved.

Ltac pres leaf :=
  first
    [ solve [auto 1 with preserved nocore]
    | lazymatch goal with
      | |- preserves _ (ret _) => apply preserves_ret
      | |- preserves _ throw => apply preserves_throw
      | |- preserves _ (gets _) => apply preserves_gets
      | |- preserves _ (bind (gets _) _) =>
          apply preserves_gets_bind; intros ? ?; pres leaf
      | |- preserves _ (bind _ _) =>
          apply preserves_bind; [pres leaf | intros ?; pres leaf]
      | |- preserves _ (tryCatch _ _) => apply preserves_tryCatch; pres leaf
      | |- preserves _ (when _ _) => apply preserves_when; pres leaf
      | |- preserves _ (modify _) => apply preserves_modify; leaf
      | |- preserves _ (if ?b then _ else _) =>
          destruct b; first [congruence | pres leaf]
      | |- preserves _ (match ?x with _ => _ end) =>
          let x' := eval hnf in x in
          let h := head_of x' in
          first
            [ is_constructor h; change x with x'; cbv beta iota; pres leaf
            | destruct x; first [congruence | pres leaf] ]
      | |- preserves _ ?m => let h := head_of m in unfold h; pres leaf
      end ].

Ltac locked_leaf :=
  idtac;
  let s := fresh "s" in
  let H := fresh "H" in
  intros s H; unfold inputLocked in *; simpl; solve [exact H | reflexivity].

Lemma runEffects_locked (prev cur : State) :
  preserves inputLocked (runEffects prev cur).
Proof. pres locked_leaf. Qed.


Lemma flush_preserves (P : Sys -> Prop) :
  (forall prev s0, P s0 -> preserves P (runEffects prev (st s0))) ->
  forall n prev, preserves P (flush n prev).
Proof.
  intros H n. induction n as [|n IH]; intros prev; simpl.
  - apply preserves_ret.
  - apply preserves_gets_bind. intros s0 H0.
    apply preserves_bind; [apply H, H0 | intros _; apply IH].
Qed.

Lemma step_preserves (P : Sys -> Prop) (ev : Event) :
  preserves P (dispatch ev) ->
  (forall prev s0, P s0 -> preserves P (runEffects prev (st s0))) ->
  forall s, P s -> P (step ev s).
Proof.
  intros Hd He s H. unfold Chat.step.
  destruct (JS.truthy agentId); [|exact H].
  apply (flush_preserves P He 3 (st s)), Hd, H.
Qed.

Lemma run_preserves (P : Sys -> Prop) :
  (forall ev s, P s -> P (step ev s)) ->
  forall evs s, P s -> P (run evs s).
Proof.
  intros H evs. induction evs as [|ev evs IH]; intros s Hs; simpl.
  - exact Hs.
  - apply IH, H, Hs.
Qed.

Lemma reachable_invariant (P : Sys -> Prop) :
  (forall q stored t0, P (mount q stored t0)) ->
  (forall ev s, P s -> P (step ev s)) ->
  forall s, reachable s -> P s.
Proof.
  intros Hm Hs s (q & stored & t0 & evs & ->).
  apply run_preserves; [exact Hs | apply Hm].
Qed.

(** *** The input lock *)

Lemma step_locked (ev : Event) (s : Sys) :
  preserves inputLocked (dispatch ev) ->
  inputLocked s -> inputLocked (step ev s).
Proof.
  intros Hd. apply step_preserves; [exact Hd|].
  intros prev s0 _. apply runEffects_locked.
Qed.

(** *** The identity of the closures *)

Ltac identity_leaf :=
  idtac;
  let s := fresh "s" in
  let H := fresh "H" in
  intros s H; unfold identityIs in *; simpl;
  repeat match goal with K : _ /\ _ |- _ => destruct K end;
  split; [assumption|];
  first [ assumption
        | let E := fresh "E" in
          intros ? E;
          first [discriminate E | injection E as <-; assumption] ].

Lemma runEffects_identity (u : option string) (prev : State) (s0 : Sys) :
  identityIs u s0 -> preserves (identityIs u) (runEffects prev (st s0)).
Proof. intros H0. pres identity_leaf. Qed.

Lemma dispatch_identity (u : option string) (ev : Event) :
  preserves (identityIs u) (dispatch ev).
Proof. destruct ev; pres identity_leaf. Qed.

Lemma step_identity (u : option string) (ev : Event) (s : Sys) :
  identityIs u s -> identityIs u (step ev s).
Proof.
  apply step_preserves; [apply dispatch_identity|].
  intros prev s0. apply runEffects_identity.
Qed.


Lemma identityEffect_identity (s0 : Sys) :
  handlers s0 = None ->
  exists s1 u, identityEffect s0 = (Ok tt, s1) /\ identityIs u s1.
Proof.
  intros Hh. destruct s0 as [r0 ? h ? ? ? ? ? ? stored]. simpl in Hh. subst h.
  unfold Chat.identityEffect, bind, localStorageGetItem, gets. simpl.
  destruct (JS.truthyOpt stored); do 2 eexists;
    (split; [reflexivity | split; [reflexivity | discriminate]]).
Qed.

Lemma mountEffects_rest_identity (u : option string) (q : string) :
  preserves (identityIs u)
    (when (JS.truthy agentId)
       (checkServer_begin ;;
        roomEffect (initialState q) ;;
        connectionEffect (initialState q) ;;
        listenerEffect (initialState q) ;;
        historyEffect (initialState q))).
Proof. pres identity_leaf. Qed.

Lemma mount_identity (q : string) (stored : option string) (t0 : N) :
  exists u, identityIs u (mount q stored t0).
Proof.
  unfold Chat.mount.
  set (s0 := mkSys (initialState q) false None t0 0 [] [] [] false stored).
  destruct (identityEffect_identity s0 eq_refl) as (s1 & u & E1 & I1).
  exists u.
  assert (I2 : identityIs u (exec (mountEffects (initialState q)) s0)).
  { unfold Chat.mountEffects. rewrite (exec_bind_ok _ _ _ _ _ E1).
    apply mountEffects_rest_identity, I1. }
  destruct (JS.truthy agentId); [|exact I2].
  apply (flush_preserves (identityIs u)); [|exact I2].
  intros prev s2. apply runEffects_identity.
Qed.

(** In every reachable state the attached handlers were created with the
    identity the component has now. *)
Lemma attached_identity (s : Sys) (r : State) :
  reachable s -> handlers s = Some r -> userEntity r = userEntity (st s).
Proof.
  intros Hr Hh.
  assert (I : exists u, identityIs u s).
  { clear Hh. revert s Hr. apply reachable_invariant.
    - apply mount_identity.
    - intros ev s (u & I). exists u. apply step_identity, I. }
  destruct I as (u & Hu & Hcl). rewrite Hu. apply Hcl, Hh.
Qed.

(** ** C1 *)

(** C1 (self-echo suppression). A message-broadcast whose [senderId] is
    the identity of the local user changes nothing at all: the handler
    returns the system it was given, whichever render attached it, and so
    does the whole event, rendering included. In particular the message
    list keeps the single optimistic copy of a message sent locally. *)
Theorem self_echo_suppression (s : Sys) (data : MessageBroadcastData) :
  reachable s ->
  userEntity (st s) = Some (bd_senderId data) ->
  (forall r, handlers s = Some r ->
             handleMessageBroadcast r data s = (Ok tt, s)) /\
  step (MessageBroadcast data) s = s.
Proof.
  intros Hr Hu.
  assert (Hh : forall r, handlers s = Some r ->
                         handleMessageBroadcast r data s = (Ok tt, s)).
  { intros r Hh. apply handleMessageBroadcast_own.
    rewrite (attached_identity s r Hr Hh). exact Hu. }
  split; [exact Hh|].
  unfold Chat.step. destruct (JS.truthy agentId); [|reflexivity].
  assert (E : exec (dispatch (MessageBroadcast data)) s = s).
  { unfold exec, Chat.dispatch, emit, bind, gets.
    destruct (handlers s) as [r|] eqn:E; [|reflexivity].
    rewrite (Hh r eq_refl). reflexivity. }
  rewrite E. apply flush_same, sameDeps_refl.
Qed.


(** ** C2 *)

Lemma dispatch_attached (h : State -> M unit) (r : State) (s : Sys) :
  handlers s = Some r -> emit h s = h r s.
Proof. intros H. unfold emit, bind, gets. rewrite H. reflexivity. Qed.

(** C2 (agent classification). A message-broadcast of somebody else that
    comes from the agent, or on the all-zero channel or room, reaches the
    attached handler, which clears [isAgentThinking] and appends exactly
    one message: named after the sender when the event names one, and
    "Agent" otherwise. *)
Theorem agent_classification (s : Sys) (r : State)
        (data : MessageBroadcastData) :
  JS.truthy agentId = true ->
  reachable s ->
  handlers s = Some r ->
  Some (bd_senderId data) <> userEntity (st s) ->
  bd_senderId data = agentId \/
  bd_channelId data = Some centralChannelId \/
  bd_roomId data = Some centralChannelId ->
  let s' := step (MessageBroadcast data) s in
  s' = exec (handleMessageBroadcast r data) s /\
  isAgentThinking (st s') = false /\
  messages (st s') =
  messages (st s) ++
  [mkChatMessage
     (JS.orElse (bd_id data) (uuidSequence (uuidsDrawn s)))
     (JS.orElse (bd_senderName data) "Agent")
     (bd_text data)
     (Some (bd_senderId data))
     (JS.orElseOpt (bd_roomId data)
                   (JS.orElseOpt (bd_channelId data) (roomId r)))
     (JS.orElseNum (bd_createdAt data) (now s))
     (bd_source data) (bd_thought data) (bd_actions data) false].
Proof.
  intros Ha Hr Hh Hne Hcls s'.
  apply isAgentMessage_true_iff in Hcls.
  assert (Hne' : Some (bd_senderId data) <> userEntity r)
    by (rewrite (attached_identity s r Hr Hh); exact Hne).
  pose proof (handleMessageBroadcast_other r data s Hne') as E.
  rewrite Hcls in E.
  assert (Es : s' = exec (handleMessageBroadcast r data) s).
  { unfold s'. rewrite step_same; [| exact Ha |].
    - unfold exec, Chat.dispatch. rewrite (dispatch_attached _ r s Hh).
      reflexivity.
    - unfold exec, Chat.dispatch. rewrite (dispatch_attached _ r s Hh), E.
      repeat split. }
  split; [exact Es|]. rewrite Es. unfold exec. rewrite E.
  split; reflexivity.
Qed.

(** ** C3 *)

(** C3 (send precondition gating). When the text trims to the empty
    string, or the render [sendMessage] closes over has no user identity,
    no room id, a disabled input or a connection that is not established,
    [sendMessage] returns the system it was given: no message, no socket
    call, no timer, no flag. The same holds of the whole event when the
    render is the current one. *)
Theorem send_precondition_gating (r : State) (messageText : JS.text)
        (s : Sys) :
  JS.trim messageText = [] \/ userEntity r = None \/ roomId r = None \/
  inputDisabled r = true \/ connectionStatus r <> conn_connected ->
  sendMessage r messageText s = (Ok tt, s) /\
  (r = st s -> step (SendMessage messageText) s = s).
Proof.
  intros H.
  assert (C : canSend r messageText = false).
  { apply canSend_false_iff.
    destruct H as [H|[H|[H|[H|H]]]]; auto 6.
    - right; left. rewrite H. reflexivity.
    - right; right; left. rewrite H. reflexivity. }
  split; [apply sendMessage_blocked, C|].
  intros ->. unfold Chat.step. destruct (JS.truthy agentId); [|reflexivity].
  assert (E : exec (dispatch (SendMessage messageText)) s = s).
  { unfold exec, Chat.dispatch, bind, gets.
    rewrite (sendMessage_blocked _ _ _ C). reflexivity. }
  rewrite E. apply flush_same, sameDeps_refl.
Qed.

(** ** C4 *)

(** C4 (send success). When every precondition holds, [sendMessage]
    appends one message (its id the next value of the uuid generator, its
    sender the local identity, its source [CHAT_SOURCE]), sets
    [isAgentThinking] and [inputDisabled], makes exactly one socket call,
    which sends the text to the all-zero channel, and touches nothing else
    but the 30 s timer it arms. *)
Theorem send_success (s : Sys) (messageText : JS.text) :
  JS.trim messageText <> [] ->
  JS.truthyOpt (userEntity (st s)) = true ->
  JS.truthyOpt (roomId (st s)) = true ->
  inputDisabled (st s) = false ->
  connectionStatus (st s) = conn_connected ->
  let s' := exec (sendMessage (st s) messageText) s in
  messages (st s') =
  messages (st s) ++
  [mkChatMessage (uuidSequence (uuidsDrawn s)) USER_NAME messageText
     (userEntity (st s)) (roomId (st s)) (now s) (Some CHAT_SOURCE)
     None None false] /\
  uuidsDrawn s' = S (uuidsDrawn s) /\
  isAgentThinking (st s') = true /\
  inputDisabled (st s') = true /\
  socketCalls s' =
  socketCalls s ++
  [SendChannelMessage messageText "00000000-0000-0000-0000-000000000000"
     CHAT_SOURCE] /\
  timers s' = schedule ((now s + 30000)%N, SendTimeout) (timers s) /\
  requests s' = requests s /\
  sameDeps (st s) (st s').
Proof.
  intros Ht Hu Hr Hi Hc s'.
  assert (H : canSend (st s) messageText = true).
  { unfold canSend. rewrite Hu, Hr, Hi, Hc.
    destruct (JS.trim messageText); [congruence | reflexivity]. }
  unfold s', exec. rewrite (sendMessage_sent _ _ _ H).
  simpl. repeat split.
Qed.

(** ** C7 *)

(** C7 (completion signal). [handleMessageComplete] clears
    [isAgentThinking] and [inputDisabled] whatever the state, changes
    nothing else, and running it again changes nothing; the same holds of
    the event. *)
Theorem message_complete_idempotent (s : Sys) :
  let s' := exec handleMessageComplete s in
  s' = mapState (fun r => withInputDisabled false
                            (withIsAgentThinking false r)) s /\
  isAgentThinking (st s') = false /\
  inputDisabled (st s') = false /\
  messages (st s') = messages (st s) /\
  exec handleMessageComplete s' = s' /\
  step MessageComplete (step MessageComplete s) = step MessageComplete s.
Proof.
  intros s'. unfold s', exec. rewrite handleMessageComplete_run.
  repeat split.
  assert (E : forall x, JS.truthy agentId = true ->
                        step MessageComplete x =
                        exec (dispatch MessageComplete) x).
  { intros x Ha. apply step_same; [exact Ha|].
    unfold exec, Chat.dispatch, emit, bind, gets.
    destruct (handlers x); repeat split. }
  destruct (JS.truthy agentId) eqn:Ha.
  - rewrite !E by reflexivity.
    unfold exec, Chat.dispatch, emit, bind, gets.
    destruct (handlers s) eqn:Hh; simpl; rewrite Hh; reflexivity.
  - unfold Chat.step. rewrite Ha. reflexivity.
Qed.


(** ** C8 *)

(** C8 (registration is not fatal). Whatever the registration request
    does (an OK response, a response that is not OK, with a body that can
    or cannot be read, or a rejected fetch), [initializeConnection] goes
    on to call [initialize] on the socket manager and to poll the
    connection: it marks the connection established when the socket is
    up, and arms the one-second timer otherwise. The outcome shows in
    [agentStatus] and nowhere else. *)
Theorem registration_non_fatal (r : State) (reg : FetchOutcome) (s : Sys) :
  let s' := exec (initializeConnection r reg) s in
  let ok := exec (initializeConnection r ResponseOk) s in
  socketCalls s' = socketCalls s ++ [Initialize (userEntity r) serverId] /\
  (if socketUp s
   then connectionStatus (st s') = conn_connected /\ timers s' = timers s
   else connectionStatus (st s') = conn_connecting /\
        timers s' = schedule ((now s + 1000)%N, CheckConnection) (timers s)) /\
  agentStatus (st s') =
  match reg with
  | ResponseOk | ResponseNotOk (Some _) => agent_ready
  | ResponseNotOk None | FetchRejected => agent_error
  end /\
  s' = mapState (withAgentStatus (agentStatus (st s'))) ok.
Proof.
  destruct s as [r0 ? ? ? ? ? ? ? up ?]. destruct r0.
  destruct reg as [ | [body|] | ]; destruct up; simpl; repeat split.
Qed.

(** ** C6 *)


Lemma historyEffect_run (r : State) (s : Sys) :
  historyEffect r s =
  (Ok tt,
   match roomId r with
   | Some room =>
       if negb (JS.truthy room) || negb (JS.truthy agentId)
          || negb (if ConnectionStatus_dec (connectionStatus r) conn_connected
                   then true else false)
          || initStartedRef s
       then s
       else mkSys (withIsLoadingHistory true (st s)) true (handlers s) (now s)
                  (uuidsDrawn s) (timers s) (socketCalls s)
                  (requests s ++ [GetRoomMemories agentId room 50])
                  (socketUp s) (storage s)
   | None => s
   end).
Proof.
  unfold Chat.historyEffect, bind, gets.
  destruct (roomId r) as [room|]; [|reflexivity].
  destruct (negb (JS.truthy room) || negb (JS.truthy agentId)
            || negb (if ConnectionStatus_dec (connectionStatus r)
                          conn_connected then true else false)
            || initStartedRef s); reflexivity.
Qed.

Lemma historyEffect_latch (r : State) : preserves latchCounts (historyEffect r).
Proof.
  intros s H. rewrite historyEffect_run. simpl.
  destruct (roomId r) as [room|]; [|exact H].
  destruct (initStartedRef s) eqn:E.
  - rewrite orb_true_r. exact H.
  - rewrite orb_false_r.
    destruct (negb (JS.truthy room) || negb (JS.truthy agentId)
              || negb (if ConnectionStatus_dec (connectionStatus r)
                            conn_connected then true else false));
      [exact H|].
    unfold latchCounts, historyFetches in *. rewrite E in H. simpl.
    rewrite filter_app, length_app, H. reflexivity.
Qed.

#[local] Hint Resolve historyEffect_latch : preserved.








(** ** C10 *)

Lemma fireTimer_locked (s : Sys) :
  inputLocked s ->
  inputLocked (exec (dispatch TimerFires) s) \/
  exists due rest,
    timers s = (due, SendTimeout) :: rest /\ (due <=? now s)%N = true.
Proof.
  intros L. unfold exec, Chat.dispatch, fireTimer.
  unfold bind at 1. unfold gets at 1. unfold bind at 1. unfold gets at 1.
  destruct (timers s) as [|[due a] rest] eqn:E; [left; exact L|].
  destruct (due <=? now s)%N eqn:D; [|left; exact L].
  destruct a; [left | right; eauto].
  assert (P : preserves inputLocked (setTimers rest ;; runTimer CheckConnection))
    by pres locked_leaf.
  apply P, L.
Qed.

(** C10 (frame of an agent reply). The handler of a message-broadcast
    classified as coming from the agent writes the message list and
    [isAgentThinking] and no other state: [inputDisabled], the connection,
    server and agent status, the room id, the latch, the attached handlers,
    the timers and the socket and REST traffic are as before. And whatever
    the event, the input goes from disabled to enabled only on an
    [enable_input] control message, on a message-complete event, or when
    the 30 s send timeout fires. *)
Theorem agent_reply_frame (s : Sys) (r : State) (data : MessageBroadcastData)
        (ev : Event) :
  Some (bd_senderId data) <> userEntity r ->
  bd_senderId data = agentId \/
  bd_channelId data = Some centralChannelId \/
  bd_roomId data = Some centralChannelId ->
  let s' := exec (handleMessageBroadcast r data) s in
  (st s' = withIsAgentThinking false (withMessages (messages (st s')) (st s)) /\
   inputDisabled (st s') = inputDisabled (st s) /\
   connectionStatus (st s') = connectionStatus (st s) /\
   serverStatus (st s') = serverStatus (st s) /\
   agentStatus (st s') = agentStatus (st s) /\
   roomId (st s') = roomId (st s) /\
   initStartedRef s' = initStartedRef s /\
   handlers s' = handlers s /\
   timers s' = timers s /\
   socketCalls s' = socketCalls s /\
   requests s' = requests s) /\
  (inputDisabled (st s) = true ->
   inputDisabled (st (step ev s)) = false ->
   (exists c, ev = ControlMessage c /\ cd_action c = "enable_input") \/
   ev = MessageComplete \/
   (ev = TimerFires /\
    exists due rest,
      timers s = (due, SendTimeout) :: rest /\ (due <= now s)%N)).
Proof.
  intros Hne Hcls s'. split.
  - apply isAgentMessage_true_iff in Hcls.
    unfold s', exec. rewrite (handleMessageBroadcast_other r data s Hne), Hcls.
    simpl. repeat split.
  - intros L U.
    assert (K : inputLocked (exec (dispatch ev) s) -> False).
    { intros L'. unfold Chat.step in U.
      destruct (JS.truthy agentId); [|congruence].
      assert (L2 : inputLocked (exec (commit (st s)) (exec (dispatch ev) s))).
      { apply (flush_preserves inputLocked); [|exact L'].
        intros prev s0 _. apply runEffects_locked. }
      unfold inputLocked in L2. congruence. }
    assert (K' : preserves inputLocked (dispatch ev) -> False)
      by (intros P; apply K, P, L).
    destruct ev as [p|q|reg|up|ms| |d|c| |h|v| |t];
      try (exfalso; apply K'; pres locked_leaf).
    + right; right. split; [reflexivity|].
      destruct (fireTimer_locked s L) as [L'|(due & rest & E & D)];
        [contradiction|].
      exists due, rest. split; [exact E | apply N.leb_le, D].
    + destruct (string_dec (cd_action c) "enable_input") as [e|n];
        [left; eauto|].
      exfalso; apply K'; pres locked_leaf.
    + right; left; reflexivity.
Qed.


(** ** C5 *)

Lemma In_schedule_new (t : N * TimerAction) (q : list (N * TimerAction)) :
  In t (schedule t q).
Proof.
  induction q as [|x q IH]; simpl; [left; reflexivity|].
  destruct (fst x <=? fst t)%N; simpl; auto.
Qed.

Lemma In_schedule_old (t x : N * TimerAction) (q : list (N * TimerAction)) :
  In x q -> In x (schedule t q).
Proof.
  induction q as [|y q IH]; simpl; [contradiction|].
  intros [->|H]; destruct (fst _ <=? fst t)%N; simpl; auto.
Qed.

Ltac pending_leaf :=
  idtac;
  let s := fresh "s" in
  let H := fresh "H" in
  intros s H; unfold pending in *; simpl;
  first [exact H | apply In_schedule_old, H].

Lemma step_pending (t : N * TimerAction) (ev : Event) (s : Sys) :
  ev <> TimerFires -> pending t s -> pending t (step ev s).
Proof.
  intros Hev. apply step_preserves.
  - destruct ev; try congruence; pres pending_leaf.
  - intros prev s0 _. pres pending_leaf.
Qed.

Lemma step_SendMessage (s : Sys) (messageText : JS.text) :
  JS.truthy agentId = true ->
  canSend (st s) messageText = true ->
  step (SendMessage messageText) s = exec (sendMessage (st s) messageText) s.
Proof.
  intros Ha H. rewrite step_same; [| exact Ha |];
    unfold exec, Chat.dispatch, bind, gets;
    rewrite (sendMessage_sent _ _ _ H); [reflexivity | repeat split].
Qed.

Lemma step_TimerFires_SendTimeout (s : Sys) (due : N)
      (rest : list (N * TimerAction)) :
  JS.truthy agentId = true ->
  timers s = (due, SendTimeout) :: rest -> (due <= now s)%N ->
  step TimerFires s =
  mkSys (withIsAgentThinking false (withInputDisabled false (st s)))
        (initStartedRef s) (handlers s) (now s) (uuidsDrawn s) rest
        (socketCalls s) (requests s) (socketUp s) (storage s).
Proof.
  intros Ha E D. apply N.leb_le in D.
  assert (R : exec (dispatch TimerFires) s =
              mkSys (withIsAgentThinking false (withInputDisabled false (st s)))
                    (initStartedRef s) (handlers s) (now s) (uuidsDrawn s) rest
                    (socketCalls s) (requests s) (socketUp s) (storage s)).
  { unfold exec, Chat.dispatch, fireTimer, bind, gets. rewrite E, D.
    reflexivity. }
  rewrite step_same; [exact R | exact Ha |]. rewrite R. repeat split.
Qed.

(** C5, amended (send timeout). A successful [sendMessage] arms a timer
    due 30 s later. A message-broadcast, the reply of the agent included,
    leaves it pending. When it fires it clears [inputDisabled] and
    [isAgentThinking] without looking at the state, and leaves the message
    list alone. After a send with no other timer pending and no response,
    once 30 s have elapsed the timer fires, both flags are false and the
    list holds the messages it held plus the one optimistic message. *)
Theorem send_timeout_unconditional (s : Sys) (messageText : JS.text) :
  JS.truthy agentId = true ->
  canSend (st s) messageText = true ->
  let s1 := step (SendMessage messageText) s in
  let sent :=
    mkChatMessage (uuidSequence (uuidsDrawn s)) USER_NAME messageText
      (userEntity (st s)) (roomId (st s)) (now s) (Some CHAT_SOURCE)
      None None false in
  pending ((now s + 30000)%N, SendTimeout) s1 /\
  (forall data x t,
      pending t x -> pending t (step (MessageBroadcast data) x)) /\
  (forall x due rest,
      timers x = (due, SendTimeout) :: rest -> (due <= now x)%N ->
      let x' := step TimerFires x in
      inputDisabled (st x') = false /\ isAgentThinking (st x') = false /\
      messages (st x') = messages (st x) /\ timers x' = rest) /\
  (timers s = [] ->
   let s2 := step TimerFires (step (Elapse 30000) s1) in
   now s2 = (now s + 30000)%N /\
   inputDisabled (st s2) = false /\ isAgentThinking (st s2) = false /\
   messages (st s2) = messages (st s) ++ [sent] /\ timers s2 = []).
Proof.
  intros Ha H s1 sent.
  assert (E1 : s1 = exec (sendMessage (st s) messageText) s)
    by (apply step_SendMessage; assumption).
  unfold exec in E1. rewrite (sendMessage_sent _ _ _ H) in E1. simpl in E1.
  split; [|split; [|split]].
  - rewrite E1. unfold pending. simpl. apply In_schedule_new.
  - intros data x t. apply step_pending. discriminate.
  - intros x due rest E D x'. unfold x'.
    rewrite (step_TimerFires_SendTimeout x due rest Ha E D). simpl.
    repeat split.
  - intros T s2.
    assert (E2 : step (Elapse 30000) s1 =
                 mkSys (st s1) (initStartedRef s1) (handlers s1)
                       (now s1 + 30000)%N (uuidsDrawn s1) (timers s1)
                       (socketCalls s1) (requests s1) (socketUp s1)
                       (storage s1)).
    { rewrite step_same; [reflexivity | exact Ha | repeat split]. }
    unfold s2. rewrite E2.
    rewrite (step_TimerFires_SendTimeout _ (now s + 30000)%N [] Ha).
    + rewrite E1. simpl. repeat split.
    + rewrite E1. simpl. rewrite T. reflexivity.
    + rewrite E1. simpl. lia.
Qed.

(** ** C9 *)

Lemma ids_snoc (r : State) (m : ChatMessage) :
  ids (withMessages (messages r ++ [m]) r) = ids r ++ [msg_id m].
Proof. unfold ids. simpl. rewrite map_app. reflexivity. Qed.

(** C9, amended (message ids). No append site looks at the ids already
    stored. After the optimistic append of [sendMessage] the ids are
    pairwise distinct exactly when they were and the generated id is not
    stored yet; after the append of a live broadcast, exactly when they
    were and the id of the event (the generated one when it carries none)
    is not stored yet; after the history replacement, exactly when the
    fetched list has pairwise distinct ids. *)
Theorem message_ids_distinct_iff_fresh (s : Sys) (messageText : JS.text)
        (r : State) (data : MessageBroadcastData)
        (loaded : list ChatMessage) :
  canSend (st s) messageText = true ->
  Some (bd_senderId data) <> userEntity r ->
  (NoDup (ids (st (exec (sendMessage (st s) messageText) s))) <->
   NoDup (ids (st s)) /\ ~ In (uuidSequence (uuidsDrawn s)) (ids (st s))) /\
  (NoDup (ids (st (exec (handleMessageBroadcast r data) s))) <->
   NoDup (ids (st s)) /\
   ~ In (JS.orElse (bd_id data) (uuidSequence (uuidsDrawn s))) (ids (st s))) /\
  (NoDup (ids (st (exec (history_resume (Some loaded)) s))) <->
   NoDup (map msg_id loaded)).
Proof using agentId CHAT_SOURCE uuidSequence.
  intros Hs Hb. split; [|split].
  - unfold exec. rewrite (sendMessage_sent _ _ _ Hs). simpl.
    change (ids _) with
      (ids (withMessages (messages (st s) ++
              [mkChatMessage (uuidSequence (uuidsDrawn s)) USER_NAME
                 messageText (userEntity (st s)) (roomId (st s)) (now s)
                 (Some CHAT_SOURCE) None None false]) (st s))) at 1.
    rewrite ids_snoc. apply NoDup_snoc.
  - unfold exec. rewrite (handleMessageBroadcast_other _ _ _ Hb). simpl.
    match goal with
    | |- NoDup (ids (_ (withMessages (_ ++ [?m]) _))) <-> _ =>
        assert (E : forall f, (f = withIsAgentThinking false \/
                               f = (fun x => x)) ->
                  ids (f (withMessages (messages (st s) ++ [m]) (st s)))
                  = ids (st s) ++ [msg_id m])
          by (intros f [->| ->]; unfold ids; simpl; apply map_app);
        rewrite E by (destruct (isAgentMessage data); auto)
    end.
    apply NoDup_snoc.
  - reflexivity.
Qed.


(** ** Rendering settles *)

Lemma returns_ret {A} (a : A) : returns (ret a).
Proof. intros s. exists a. reflexivity. Qed.

Lemma returns_gets {A} (f : Sys -> A) : returns (gets f).
Proof. intros s. exists (f s). reflexivity. Qed.

Lemma returns_modify (f : Sys -> Sys) : returns (modify f).
Proof. intros s. exists tt. reflexivity. Qed.

Lemma returns_bind {A B} (m : M A) (k : A -> M B) :
  returns m -> (forall a, returns (k a)) -> returns (bind m k).
Proof.
  intros Hm Hk s. unfold bind. destruct (Hm s) as (a & E).
  destruct (m s) as [[a'|] s']; simpl in E; [|discriminate].
  apply Hk.
Qed.

Lemma returns_when (b : bool) (m : M unit) : returns m -> returns (when b m).
Proof. intros H. destruct b; [exact H | apply returns_ret]. Qed.

Ltac rets :=
  lazymatch goal with
  | |- returns (ret _) => apply returns_ret
  | |- returns (gets _) => apply returns_gets
  | |- returns (modify _) => apply returns_modify
  | |- returns (bind _ _) => apply returns_bind; [rets | intros ?; rets]
  | |- returns (when _ _) => apply returns_when; rets
  | |- returns (if ?b then _ else _) => destruct b; rets
  | |- returns (match ?x with _ => _ end) => destruct x; rets
  | |- returns ?m => let h := head_of m in unfold h; rets
  end.

Lemma runEffects_returns (prev cur : State) : returns (runEffects prev cur).
Proof. rets. Qed.

Lemma runEffects_run (prev cur : State) (s : Sys) :
  runEffects prev cur s = (Ok tt, exec (runEffects prev cur) s).
Proof.
  destruct (runEffects_returns prev cur s) as (a & E). unfold exec.
  destruct (runEffects prev cur s) as [res s']. simpl in *.
  subst res. destruct a. reflexivity.
Qed.

Ltac fields_leaf :=
  idtac;
  let s := fresh "s" in
  let H := fresh "H" in
  intros s H; unfold inputsAre, sessionIs in *; simpl; exact H.

(** No effect writes the query, the identity or the server status. *)
Lemma runEffects_inputs (q : string) (u : option string) (v : ServerStatus)
      (prev cur : State) :
  preserves (inputsAre q u v) (runEffects prev cur).
Proof. pres fields_leaf. Qed.

(** When neither the room effect nor the connection effect runs, the
    connection status and the room id stay. *)
Lemma runEffects_session (c : ConnectionStatus) (room : option string)
      (prev cur : State) :
  roomDepsChanged prev cur = false ->
  connectionDepsChanged prev cur = false ->
  preserves (sessionIs c room) (runEffects prev cur).
Proof.
  intros Hr Hc. unfold Chat.runEffects. rewrite Hr, Hc. cbn [when].
  pres fields_leaf.
Qed.

(** [commit] returns, and the render it returns is the state it leaves:
    no effect has a changed dependency any more. *)
Lemma commit_settled (prev : State) (s : Sys) :
  exists s', commit prev s = (Ok (st s'), s') /\
             runEffects (st s') (st s') s' = (Ok tt, s').
Proof.
  set (s1 := exec (runEffects prev (st s)) s).
  set (s2 := exec (runEffects (st s) (st s1)) s1).
  assert (I1 : inputsAre (query (st s)) (userEntity (st s))
                         (serverStatus (st s)) s1)
    by (apply runEffects_inputs; repeat split).
  assert (I2 : inputsAre (query (st s1)) (userEntity (st s1))
                         (serverStatus (st s1)) s2)
    by (apply runEffects_inputs; repeat split).
  destruct I1 as (Q1 & U1 & V1).
  assert (S2 : sessionIs (connectionStatus (st s1)) (roomId (st s1)) s2).
  { apply runEffects_session; [| | repeat split].
    - unfold roomDepsChanged. rewrite Q1, U1.
      destruct (string_dec (query (st s)) (query (st s))); [|congruence].
      destruct (optstring_dec (userEntity (st s)) (userEntity (st s)));
        [reflexivity | congruence].
    - unfold connectionDepsChanged. rewrite U1, V1.
      destruct (optstring_dec (userEntity (st s)) (userEntity (st s)));
        [|congruence].
      destruct (ServerStatus_dec (serverStatus (st s)) (serverStatus (st s)));
        [reflexivity | congruence]. }
  assert (D : sameDeps (st s1) (st s2)).
  { destruct I2 as (Q2 & U2 & V2), S2 as (C2 & R2). repeat split; auto. }
  exists s2. split; [|apply runEffects_same, sameDeps_refl].
  unfold Chat.commit. simpl. unfold bind, gets.
  rewrite (runEffects_run prev (st s) s). fold s1.
  rewrite (runEffects_run (st s) (st s1) s1). fold s2.
  rewrite (runEffects_same (st s1) (st s2) s2 D). reflexivity.
Qed.


(** * Further properties of the component *)

(** ** Rendering, round by round *)

Lemma exec_seq (m k : M unit) (s : Sys) :
  returns m -> exec (m ;; k) s = exec k (exec m s).
Proof.
  intros Hm. unfold exec, bind. destruct (Hm s) as (a & E).
  destruct (m s) as [[a'|] s']; simpl in *; [reflexivity | discriminate].
Qed.

Lemma listenerCleanup_returns : returns listenerCleanup.
Proof. rets. Qed.

Lemma roomEffect_returns (r : State) : returns (roomEffect r).
Proof. rets. Qed.

Lemma connectionEffect_returns (r : State) : returns (connectionEffect r).
Proof. rets. Qed.

Lemma listenerEffect_returns (r : State) : returns (listenerEffect r).
Proof. rets. Qed.

Lemma historyEffect_returns (r : State) : returns (historyEffect r).
Proof. rets. Qed.

(** The effects of one render, one after the other. *)
Lemma runEffects_exec (prev cur : State) (s : Sys) :
  exec (runEffects prev cur) s =
  exec (when (historyDepsChanged prev cur) (historyEffect cur))
    (exec (when (listenerDepsChanged prev cur) (listenerEffect cur))
       (exec (when (connectionDepsChanged prev cur) (connectionEffect cur))
          (exec (when (roomDepsChanged prev cur) (roomEffect cur))
             (exec (when (listenerDepsChanged prev cur) listenerCleanup)
                s)))).
Proof.
  unfold Chat.runEffects.
  rewrite exec_seq
    by (apply returns_when, listenerCleanup_returns).
  rewrite exec_seq by (apply returns_when, roomEffect_returns).
  rewrite exec_seq by (apply returns_when, connectionEffect_returns).
  rewrite exec_seq by (apply returns_when, listenerEffect_returns).
  reflexivity.
Qed.

(** [commit] is two renders; the third finds nothing to do. *)
Lemma commit_rounds (prev : State) (s : Sys) :
  let s1 := exec (runEffects prev (st s)) s in
  let s2 := exec (runEffects (st s) (st s1)) s1 in
  exec (commit prev) s = s2 /\ sameDeps (st s1) (st s2).
Proof.
  intros s1 s2.
  assert (I1 : inputsAre (query (st s)) (userEntity (st s))
                         (serverStatus (st s)) s1)
    by (apply runEffects_inputs; repeat split).
  assert (I2 : inputsAre (query (st s1)) (userEntity (st s1))
                         (serverStatus (st s1)) s2)
    by (apply runEffects_inputs; repeat split).
  destruct I1 as (Q1 & U1 & V1).
  assert (S2 : sessionIs (connectionStatus (st s1)) (roomId (st s1)) s2).
  { apply runEffects_session; [| | repeat split].
    - unfold roomDepsChanged. rewrite Q1, U1.
      destruct (string_dec (query (st s)) (query (st s))); [|congruence].
      destruct (optstring_dec (userEntity (st s)) (userEntity (st s)));
        [reflexivity | congruence].
    - unfold connectionDepsChanged. rewrite U1, V1.
      destruct (optstring_dec (userEntity (st s)) (userEntity (st s)));
        [|congruence].
      destruct (ServerStatus_dec (serverStatus (st s)) (serverStatus (st s)));
        [reflexivity | congruence]. }
  assert (D : sameDeps (st s1) (st s2)).
  { destruct I2 as (Q2 & U2 & V2), S2 as (C2 & R2). repeat split; auto. }
  split; [|exact D].
  unfold exec at 1. unfold Chat.commit. simpl. unfold bind, gets.
  rewrite (runEffects_run prev (st s) s). fold s1.
  rewrite (runEffects_run (st s) (st s1) s1). fold s2.
  rewrite (runEffects_same (st s1) (st s2) s2 D). reflexivity.
Qed.


(** ** The attached handlers belong to the current session *)

Ltac kept_leaf :=
  idtac;
  let s := fresh "s" in
  let H := fresh "H" in
  intros s H; simpl in *; exact H.

Lemma listenerDepsChanged_false (a b : State) :
  listenerDepsChanged a b = false ->
  connectionStatus a = connectionStatus b /\ roomId a = roomId b.
Proof.
  unfold listenerDepsChanged.
  destruct (ConnectionStatus_dec (connectionStatus a) (connectionStatus b)),
    (optstring_dec (roomId a) (roomId b)); simpl; intros H;
    [split; assumption | discriminate..].
Qed.

Lemma listenerCleanup_handlers (s : Sys) :
  handlers (exec listenerCleanup s) = None.
Proof.
  unfold exec, listenerCleanup, bind, gets.
  destruct (handlers s) eqn:E; [reflexivity | exact E].
Qed.

(** The listener effect attaches the render it runs for, when that render
    is connected and has a room id, and does nothing otherwise. *)
Lemma listenerEffect_handlers (cur : State) (s : Sys) :
  handlers (exec (listenerEffect cur) s) =
  if (if ConnectionStatus_dec (connectionStatus cur) conn_connected
      then true else false) && JS.truthyOpt (roomId cur)
  then Some cur else handlers s.
Proof.
  unfold exec, listenerEffect.
  destruct (roomId cur) as [room|]; simpl.
  - destruct (ConnectionStatus_dec (connectionStatus cur) conn_connected);
      simpl; [|reflexivity].
    destruct (JS.truthy room); reflexivity.
  - rewrite andb_false_r. reflexivity.
Qed.

Lemma runEffects_handlers (prev cur : State) (s : Sys) :
  handlers (exec (runEffects prev cur) s) =
  if listenerDepsChanged prev cur then
    if (if ConnectionStatus_dec (connectionStatus cur) conn_connected
        then true else false) && JS.truthyOpt (roomId cur)
    then Some cur else None
  else handlers s.
Proof.
  rewrite runEffects_exec.
  set (sa := exec (when (listenerDepsChanged prev cur) listenerCleanup) s).
  set (sb := exec (when (roomDepsChanged prev cur) (roomEffect cur)) sa).
  set (sc := exec (when (connectionDepsChanged prev cur)
                        (connectionEffect cur)) sb).
  set (sd := exec (when (listenerDepsChanged prev cur) (listenerEffect cur))
                  sc).
  assert (Hd : handlers (exec (when (historyDepsChanged prev cur)
                                    (historyEffect cur)) sd) = handlers sd).
  { assert (P : preserves (fun x => handlers x = handlers sd)
                          (when (historyDepsChanged prev cur)
                                (historyEffect cur)))
      by (apply preserves_when; intros x Hx; rewrite historyEffect_run;
          simpl; destruct (roomId cur);
          [destruct (_ || _)|]; simpl; exact Hx).
    apply P. reflexivity. }
  assert (Hc : handlers sc = handlers sb).
  { assert (P : preserves (fun x => handlers x = handlers sb)
                          (when (connectionDepsChanged prev cur)
                                (connectionEffect cur)))
      by pres kept_leaf.
    apply P. reflexivity. }
  assert (Hb : handlers sb = handlers sa).
  { assert (P : preserves (fun x => handlers x = handlers sa)
                          (when (roomDepsChanged prev cur) (roomEffect cur)))
      by pres kept_leaf.
    apply P. reflexivity. }
  rewrite Hd. unfold sd.
  destruct (listenerDepsChanged prev cur) eqn:L; cbn [when].
  - rewrite listenerEffect_handlers, Hc, Hb. unfold sa. cbn [when].
    rewrite listenerCleanup_handlers. reflexivity.
  - change (exec (ret tt) sc) with sc. rewrite Hc, Hb. reflexivity.
Qed.

Lemma attachedFor_sameDeps (a b : State) (h : option State) :
  connectionStatus a = connectionStatus b -> roomId a = roomId b ->
  attachedFor a h -> attachedFor b h.
Proof.
  intros Hc Hr. unfold attachedFor. rewrite Hc, Hr. exact (fun H => H).
Qed.

Lemma runEffects_attachedFor (prev cur : State) (s : Sys) :
  attachedFor prev (handlers s) ->
  attachedFor cur (handlers (exec (runEffects prev cur) s)).
Proof.
  intros H. rewrite runEffects_handlers.
  destruct (listenerDepsChanged prev cur) eqn:L.
  - unfold attachedFor.
    destruct (ConnectionStatus_dec (connectionStatus cur) conn_connected)
      as [e|n]; simpl.
    + destruct (JS.truthyOpt (roomId cur)) eqn:T; auto.
    + left. exact n.
  - destruct (listenerDepsChanged_false _ _ L) as (Hc & Hr).
    apply (attachedFor_sameDeps prev cur); assumption.
Qed.

Lemma commit_attachedFor (prev : State) (s : Sys) :
  attachedFor prev (handlers s) ->
  let s' := exec (commit prev) s in
  attachedFor (st s') (handlers s').
Proof.
  intros H s'. destruct (commit_rounds prev s) as (E & D).
  unfold s'. rewrite E.
  destruct D as (_ & _ & _ & Hc & Hr).
  eapply attachedFor_sameDeps; [exact Hc | exact Hr |].
  apply runEffects_attachedFor, runEffects_attachedFor, H.
Qed.

Lemma dispatch_handlers (h : option State) (ev : Event) :
  preserves (fun s => handlers s = h) (dispatch ev).
Proof. destruct ev; pres kept_leaf. Qed.

Lemma mountEffects_handlers (q : string) :
  preserves (fun s => handlers s = None) (mountEffects (initialState q)).
Proof. pres kept_leaf. Qed.

Lemma identityEffect_connecting :
  preserves (fun s => handlers s = None /\
                      connectionStatus (st s) = conn_connecting)
            identityEffect.
Proof. pres kept_leaf. Qed.

Lemma reachable_attachedFor (s : Sys) :
  reachable s -> attachedFor (st s) (handlers s).
Proof.
  revert s. apply reachable_invariant.
  - intros q stored t0. unfold Chat.mount.
    set (s0 := mkSys (initialState q) false None t0 0 [] [] [] false stored).
    destruct (JS.truthy agentId) eqn:Ha.
    + apply commit_attachedFor. unfold exec.
      rewrite (mountEffects_handlers q s0 eq_refl). right. reflexivity.
    + unfold Chat.mountEffects. rewrite Ha. cbn [when].
      rewrite exec_seq by rets.
      change (exec (ret tt) ?x) with x.
      destruct (identityEffect_connecting s0 (conj eq_refl eq_refl))
        as (Hh & Hc).
      unfold exec. rewrite Hh. left. rewrite Hc. discriminate.
  - intros ev s H. unfold Chat.step.
    destruct (JS.truthy agentId); [|exact H].
    apply commit_attachedFor. unfold exec.
    rewrite (dispatch_handlers (handlers s) ev s eq_refl). exact H.
Qed.


(** ** C6: the history fetch *)










(** ** Room and channel membership *)

Lemma joinedRooms_snoc (calls : list SocketCall) (c : SocketCall) :
  joinedRooms (calls ++ [c]) =
  match c with
  | JoinRoom room => room :: remove string_dec room (joinedRooms calls)
  | LeaveRoom (Some room) => remove string_dec room (joinedRooms calls)
  | _ => joinedRooms calls
  end.
Proof. unfold joinedRooms. rewrite fold_left_app. reflexivity. Qed.

Lemma joinedChannels_snoc (calls : list SocketCall) (c : SocketCall) :
  joinedChannels (calls ++ [c]) =
  match c with
  | JoinChannel channel _ =>
      channel :: remove string_dec channel (joinedChannels calls)
  | LeaveChannel channel => remove string_dec channel (joinedChannels calls)
  | _ => joinedChannels calls
  end.
Proof. unfold joinedChannels. rewrite fold_left_app. reflexivity. Qed.

Lemma remove_only (x : string) : remove string_dec x [x] = [].
Proof. simpl. destruct (string_dec x x); [reflexivity | congruence]. Qed.

Ltac membership_leaf :=
  idtac;
  let s := fresh "s" in
  let H := fresh "H" in
  intros s H; unfold membershipOk, detached in *;
  cbn [handlers socketCalls mapState] in *;
  rewrite ?joinedRooms_snoc, ?joinedChannels_snoc; exact H.

Lemma listenerCleanup_detaches (s : Sys) :
  membershipOk s -> detached (exec listenerCleanup s).
Proof.
  unfold membershipOk, detached, exec, listenerCleanup, bind, gets.
  destruct (handlers s) as [r|] eqn:E.
  - intros (room & Hr & Jr & Jc).
    cbn [snd socket modify setHandlers handlers socketCalls].
    rewrite !joinedRooms_snoc, !joinedChannels_snoc, Hr, Jr, Jc.
    rewrite !remove_only. repeat split.
  - intros (Jr & Jc). cbn [snd ret]. rewrite E. repeat split; assumption.
Qed.

Lemma listenerEffect_attaches (cur : State) (s : Sys) :
  detached s -> membershipOk (exec (listenerEffect cur) s).
Proof.
  intros (Hh & Jr & Jc). unfold membershipOk, exec, listenerEffect.
  destruct (roomId cur) as [room|] eqn:R.
  - destruct (negb _ || negb _).
    + cbn [snd ret]. rewrite Hh. split; assumption.
    + cbn [snd bind socket modify setHandlers handlers socketCalls].
      exists room.
      rewrite !joinedRooms_snoc, !joinedChannels_snoc, Jr, Jc.
      repeat split. exact R.
  - cbn [snd ret]. rewrite Hh. split; assumption.
Qed.

Lemma detached_membershipOk (s : Sys) : detached s -> membershipOk s.
Proof.
  intros (Hh & Jr & Jc). unfold membershipOk. rewrite Hh. split; assumption.
Qed.

Lemma runEffects_membershipOk (prev cur : State) :
  preserves membershipOk (runEffects prev cur).
Proof.
  intros s H. change (membershipOk (exec (runEffects prev cur) s)).
  rewrite runEffects_exec.
  assert (Hist : preserves membershipOk
                   (when (historyDepsChanged prev cur) (historyEffect cur)))
    by pres membership_leaf.
  apply Hist.
  destruct (listenerDepsChanged prev cur); cbn [when].
  - apply listenerEffect_attaches.
    assert (P : preserves detached
                  (when (roomDepsChanged prev cur) (roomEffect cur) ;;
                   when (connectionDepsChanged prev cur)
                        (connectionEffect cur)))
      by pres membership_leaf.
    rewrite <- exec_seq by (apply returns_when, roomEffect_returns).
    apply P, listenerCleanup_detaches, H.
  - change (exec (ret tt) ?x) with x.
    assert (P : preserves membershipOk
                  (when (roomDepsChanged prev cur) (roomEffect cur) ;;
                   when (connectionDepsChanged prev cur)
                        (connectionEffect cur)))
      by pres membership_leaf.
    rewrite <- exec_seq by (apply returns_when, roomEffect_returns).
    apply P, H.
Qed.

Lemma dispatch_membershipOk (ev : Event) :
  preserves membershipOk (dispatch ev).
Proof. destruct ev; pres membership_leaf. Qed.

Lemma mountEffects_detached (q : string) :
  preserves detached (mountEffects (initialState q)).
Proof. pres membership_leaf. Qed.

Lemma reachable_membershipOk (s : Sys) : reachable s -> membershipOk s.
Proof.
  revert s. apply reachable_invariant.
  - intros q stored t0. unfold Chat.mount.
    set (s0 := mkSys (initialState q) false None t0 0 [] [] [] false stored).
    assert (I : membershipOk (exec (mountEffects (initialState q)) s0)).
    { apply detached_membershipOk, mountEffects_detached.
      repeat split. }
    destruct (JS.truthy agentId); [|exact I].
    apply (flush_preserves membershipOk); [|exact I].
    intros prev s1 _. apply runEffects_membershipOk.
  - intros ev s. apply step_preserves; [apply dispatch_membershipOk|].
    intros prev s0 _. apply runEffects_membershipOk.
Qed.


(** ** The room id follows the query and the identity *)

Lemma flush_S (n : nat) (prev : State) (s : Sys) :
  exec (flush (S n) prev) s =
  exec (flush n (st s)) (exec (runEffects prev (st s)) s).
Proof.
  unfold exec at 1. simpl. unfold bind, gets.
  rewrite (runEffects_run prev (st s) s). reflexivity.
Qed.

Lemma roomEffect_run (cur : State) (s : Sys) :
  roomEffect cur s =
  (Ok tt,
   match roomFor (query cur) (userEntity cur) with
   | Some room => mapState (withRoomId (Some room)) s
   | None => s
   end).
Proof.
  unfold Chat.roomEffect, Chat.roomFor.
  destruct (userEntity cur) as [user|]; [|reflexivity].
  destruct (JS.truthy user), (JS.truthy agentId); simpl; try reflexivity.
  destruct (JS.truthy (query cur)); reflexivity.
Qed.

Lemma roomFor_None (q q' : string) (u : option string) :
  roomFor q u = None -> roomFor q' u = None.
Proof.
  unfold Chat.roomFor. destruct u as [user|]; [|reflexivity].
  destruct (JS.truthy user && JS.truthy agentId); [discriminate|reflexivity].
Qed.

Lemma roomDepsChanged_false (a b : State) :
  roomDepsChanged a b = false ->
  query a = query b /\ userEntity a = userEntity b.
Proof.
  unfold roomDepsChanged.
  destruct (string_dec (query a) (query b)),
    (optstring_dec (userEntity a) (userEntity b)); simpl; intros H;
    [split; assumption | discriminate..].
Qed.

Ltac room_leaf :=
  idtac;
  let s := fresh "s" in
  let H := fresh "H" in
  intros s H; unfold Chat.roomDerivedFor in *; simpl in *; exact H.

(** One render brings the room id up to date with the render's query and
    identity, when it was up to date before or the room effect runs. *)
Lemma runEffects_derives (prev : State) (s : Sys) :
  (roomDepsChanged prev (st s) = false ->
   roomId (st s) = roomFor (query (st s)) (userEntity (st s))) ->
  (roomFor (query (st s)) (userEntity (st s)) = None ->
   roomId (st s) = None) ->
  roomDerivedFor (query (st s)) (userEntity (st s))
                 (exec (runEffects prev (st s)) s).
Proof.
  intros Hsame Hnone. rewrite runEffects_exec.
  set (q := query (st s)). set (u := userEntity (st s)).
  set (sa := exec (when (listenerDepsChanged prev (st s)) listenerCleanup) s).
  assert (Ea : st sa = st s).
  { assert (P : preserves (fun x => st x = st s)
                          (when (listenerDepsChanged prev (st s))
                                listenerCleanup))
      by pres kept_leaf.
    apply P. reflexivity. }
  set (sb := exec (when (roomDepsChanged prev (st s)) (roomEffect (st s))) sa).
  assert (Db : roomDerivedFor q u sb).
  { unfold sb, exec.
    destruct (roomDepsChanged prev (st s)) eqn:R; cbn [when].
    - rewrite roomEffect_run. fold q u. simpl.
      destruct (roomFor q u) as [room|] eqn:F.
      + unfold Chat.roomDerivedFor. simpl. rewrite Ea. fold q u.
        repeat split. symmetry. exact F.
      + unfold Chat.roomDerivedFor. rewrite Ea. fold q u.
        repeat split. rewrite F. apply Hnone. exact F.
    - simpl. unfold Chat.roomDerivedFor. rewrite Ea. fold q u.
      repeat split. apply Hsame. reflexivity. }
  assert (P : preserves (roomDerivedFor q u)
                (when (connectionDepsChanged prev (st s))
                      (connectionEffect (st s)) ;;
                 when (listenerDepsChanged prev (st s))
                      (listenerEffect (st s)) ;;
                 when (historyDepsChanged prev (st s))
                      (historyEffect (st s))))
    by pres room_leaf.
  rewrite <- exec_seq by (apply returns_when, listenerEffect_returns).
  rewrite <- exec_seq by (apply returns_when, connectionEffect_returns).
  apply P, Db.
Qed.

Lemma runEffects_roomDerivedFor (q : string) (u : option string)
      (prev : State) (s0 : Sys) :
  roomDerivedFor q u s0 ->
  preserves (roomDerivedFor q u) (runEffects prev (st s0)).
Proof.
  intros (Q0 & U0 & _) s (Q & U & R).
  assert (E : forall x, exec (runEffects prev (st s0)) x =
                        exec (when (historyDepsChanged prev (st s0))
                                   (historyEffect (st s0)))
                          (exec (when (listenerDepsChanged prev (st s0))
                                      (listenerEffect (st s0)))
                             (exec (when (connectionDepsChanged prev (st s0))
                                         (connectionEffect (st s0)))
                                (exec (when (roomDepsChanged prev (st s0))
                                            (roomEffect (st s0)))
                                   (exec (when (listenerDepsChanged prev
                                                  (st s0)) listenerCleanup)
                                      x)))))
    by (intros x; apply runEffects_exec).
  change (roomDerivedFor q u (exec (runEffects prev (st s0)) s)).
  rewrite E.
  assert (Pc : preserves (roomDerivedFor q u)
                 (when (listenerDepsChanged prev (st s0)) listenerCleanup))
    by pres room_leaf.
  assert (Pr : preserves (roomDerivedFor q u)
                 (when (roomDepsChanged prev (st s0)) (roomEffect (st s0)))).
  { apply preserves_when. intros x (Qx & Ux & Rx).
    rewrite roomEffect_run, Q0, U0. simpl.
    destruct (roomFor q u) as [room|] eqn:F.
    - unfold Chat.roomDerivedFor. simpl. repeat split; auto; congruence.
    - repeat split; auto; congruence. }
  assert (P : preserves (roomDerivedFor q u)
                (when (connectionDepsChanged prev (st s0))
                      (connectionEffect (st s0)) ;;
                 when (listenerDepsChanged prev (st s0))
                      (listenerEffect (st s0)) ;;
                 when (historyDepsChanged prev (st s0))
                      (historyEffect (st s0))))
    by pres room_leaf.
  rewrite <- exec_seq by (apply returns_when, listenerEffect_returns).
  rewrite <- exec_seq by (apply returns_when, connectionEffect_returns).
  apply P, Pr, Pc. repeat split; assumption.
Qed.

Lemma commit_derives (prev : State) (s : Sys) :
  (roomDepsChanged prev (st s) = false ->
   roomId (st s) = roomFor (query (st s)) (userEntity (st s))) ->
  (roomFor (query (st s)) (userEntity (st s)) = None ->
   roomId (st s) = None) ->
  roomDerivedFor (query (st s)) (userEntity (st s)) (exec (commit prev) s).
Proof.
  intros Hsame Hnone. unfold Chat.commit. rewrite flush_S.
  apply (flush_preserves
           (roomDerivedFor (query (st s)) (userEntity (st s)))).
  - intros prev' s0. apply runEffects_roomDerivedFor.
  - apply runEffects_derives; assumption.
Qed.

Lemma dispatch_identity_room (u room : option string) (ev : Event) :
  preserves (fun s => userEntity (st s) = u /\ roomId (st s) = room)
            (dispatch ev).
Proof. destruct ev; pres kept_leaf. Qed.

Lemma dispatch_query (q : string) (ev : Event) :
  (forall q', ev <> Navigate q') ->
  preserves (fun s => query (st s) = q) (dispatch ev).
Proof.
  intros Hev. destruct ev; try (exfalso; eapply Hev; reflexivity);
    pres kept_leaf.
Qed.

Lemma mountEffects_no_room (q : string) :
  preserves (fun s => roomId (st s) = None) (mountEffects (initialState q)).
Proof. pres kept_leaf. Qed.

Lemma roomDerived_of_For (q : string) (u : option string) (s : Sys) :
  roomDerivedFor q u s ->
  roomId (st s) = roomFor (query (st s)) (userEntity (st s)).
Proof. intros (-> & -> & R). exact R. Qed.

Lemma reachable_roomDerived (s : Sys) :
  reachable s -> roomId (st s) = roomFor (query (st s)) (userEntity (st s)).
Proof.
  revert s. apply reachable_invariant.
  - intros q stored t0. unfold Chat.mount.
    set (s0 := mkSys (initialState q) false None t0 0 [] [] [] false stored).
    pose proof (mountEffects_no_room q s0 eq_refl) as N.
    fold (exec (mountEffects (initialState q)) s0) in N.
    set (s1 := exec (mountEffects (initialState q)) s0) in *.
    destruct (JS.truthy agentId) eqn:Ha.
    + eapply roomDerived_of_For, commit_derives.
      * intros D. apply roomDepsChanged_false in D. destruct D as (_ & U).
        simpl in U. rewrite N, <- U. reflexivity.
      * intros _. exact N.
    + rewrite N. unfold Chat.roomFor. rewrite Ha.
      destruct (userEntity (st s1)) as [user|]; [|reflexivity].
      rewrite andb_false_r. reflexivity.
  - intros ev s H. unfold Chat.step.
    destruct (JS.truthy agentId); [|exact H].
    destruct (dispatch_identity_room (userEntity (st s)) (roomId (st s)) ev s
                (conj eq_refl eq_refl)) as (U & R).
    fold (exec (dispatch ev) s) in U, R.
    eapply roomDerived_of_For, commit_derives.
    + intros D. apply roomDepsChanged_false in D. destruct D as (Q & _).
      rewrite R, U, <- Q. exact H.
    + intros F. rewrite R, H. rewrite U in F.
      apply (roomFor_None _ _ _ F).
Qed.


(** ** The identity *)

Lemma identityEffect_run (s : Sys) :
  identityEffect s =
  (Ok tt,
   if JS.truthyOpt (storage s) then mapState (withUserEntity (storage s)) s
   else mkSys (withUserEntity (Some (uuidSequence (uuidsDrawn s))) (st s))
              (initStartedRef s) (handlers s) (now s) (S (uuidsDrawn s))
              (timers s) (socketCalls s) (requests s) (socketUp s)
              (Some (uuidSequence (uuidsDrawn s)))).
Proof.
  unfold Chat.identityEffect, bind, localStorageGetItem, gets.
  destruct (JS.truthyOpt (storage s)); reflexivity.
Qed.

Lemma mountEffects_rest_kept (u sto : option string) (n : nat) (q : string) :
  preserves (fun s => userEntity (st s) = u /\ storage s = sto /\
                      uuidsDrawn s = n)
    (when (JS.truthy agentId)
       (checkServer_begin ;;
        roomEffect (initialState q) ;;
        connectionEffect (initialState q) ;;
        listenerEffect (initialState q) ;;
        historyEffect (initialState q))).
Proof. pres kept_leaf. Qed.

Lemma runEffects_kept (u sto : option string) (n : nat) (prev cur : State) :
  preserves (fun s => userEntity (st s) = u /\ storage s = sto /\
                      uuidsDrawn s = n)
            (runEffects prev cur).
Proof. pres kept_leaf. Qed.

Lemma dispatch_identity_storage (u sto : option string) (ev : Event) :
  preserves (fun s => userEntity (st s) = u /\ storage s = sto) (dispatch ev).
Proof. destruct ev; pres kept_leaf. Qed.

Lemma runEffects_identity_storage (u sto : option string) (prev cur : State) :
  preserves (fun s => userEntity (st s) = u /\ storage s = sto)
            (runEffects prev cur).
Proof. pres kept_leaf. Qed.

(** What mounting does to the identity, the storage and the generator. *)
Lemma mount_identity_value (q : string) (stored : option string) (t0 : N) :
  let s := mount q stored t0 in
  userEntity (st s) =
  (if JS.truthyOpt stored then stored else Some (uuidSequence 0)) /\
  storage s = userEntity (st s) /\
  uuidsDrawn s = (if JS.truthyOpt stored then 0 else 1).
Proof.
  unfold Chat.mount.
  set (s0 := mkSys (initialState q) false None t0 0 [] [] [] false stored).
  set (u := if JS.truthyOpt stored then stored else Some (uuidSequence 0)).
  set (n := if JS.truthyOpt stored then 0 else 1).
  assert (I : (fun s => userEntity (st s) = u /\ storage s = u /\
                        uuidsDrawn s = n)
                (exec (mountEffects (initialState q)) s0)).
  { unfold Chat.mountEffects.
    rewrite (exec_bind_ok _ _ _ _ _ (identityEffect_run s0)).
    apply mountEffects_rest_kept. unfold u, n. simpl.
    destruct (JS.truthyOpt stored); repeat split. }
  assert (J : (fun s => userEntity (st s) = u /\ storage s = u /\
                        uuidsDrawn s = n)
                (if JS.truthy agentId
                 then exec (commit (initialState q))
                           (exec (mountEffects (initialState q)) s0)
                 else exec (mountEffects (initialState q)) s0)).
  { destruct (JS.truthy agentId); [|exact I].
    apply (flush_preserves
             (fun s => userEntity (st s) = u /\ storage s = u /\
                       uuidsDrawn s = n)); [|exact I].
    intros prev s1 _. apply runEffects_kept. }
  destruct J as (Ju & Js & Jn). rewrite Js, Ju. repeat split; assumption.
Qed.

Lemma step_identity_storage (ev : Event) (s : Sys) :
  userEntity (st (step ev s)) = userEntity (st s) /\
  storage (step ev s) = storage s.
Proof.
  apply (step_preserves
           (fun x => userEntity (st x) = userEntity (st s) /\
                     storage x = storage s)).
  - apply dispatch_identity_storage.
  - intros prev s0 _. apply runEffects_identity_storage.
  - split; reflexivity.
Qed.

Lemma reachable_storage (s : Sys) :
  reachable s -> storage s = userEntity (st s).
Proof.
  revert s. apply reachable_invariant.
  - intros q stored t0. apply mount_identity_value.
  - intros ev s H. destruct (step_identity_storage ev s) as (U & S).
    rewrite U, S. exact H.
Qed.



Lemma step_reachable (ev : Event) (s : Sys) :
  reachable s -> reachable (step ev s).
Proof.
  intros (q & stored & t0 & evs & ->).
  exists q, stored, t0, (evs ++ [ev]).
  unfold Chat.run. rewrite fold_left_app. reflexivity.
Qed.

Lemma step_Navigate_query (q : string) (s : Sys) :
  JS.truthy agentId = true -> query (st (step (Navigate q) s)) = q.
Proof.
  intros Ha. unfold Chat.step. rewrite Ha.
  assert (P : inputsAre q (userEntity (st s)) (serverStatus (st s))
                (exec (commit (st s)) (exec (dispatch (Navigate q)) s))).
  { apply (flush_preserves
             (inputsAre q (userEntity (st s)) (serverStatus (st s)))).
    - intros prev s0 _. apply runEffects_inputs.
    - repeat split. }
  apply P.
Qed.

(** X2 (session key). In every reachable state the room id is the one
    derived from the current query and identity: none without an identity
    or an agent id, [generateQueryRoomId] of the identity and the query
    when there is a query, and the agent id, a dash and the identity
    otherwise. When the query changes, the room id changes with it in the
    same step. *)
Theorem room_id_follows_query (s : Sys) (q : string) :
  reachable s ->
  roomId (st s) = roomFor (query (st s)) (userEntity (st s)) /\
  roomId (st (step (Navigate q) s)) = roomFor q (userEntity (st s)).
Proof.
  intros Hr. pose proof (reachable_roomDerived s Hr) as D.
  split; [exact D|].
  destruct (JS.truthy agentId) eqn:Ha.
  - pose proof (reachable_roomDerived _ (step_reachable (Navigate q) s Hr))
      as D'.
    rewrite D', (step_Navigate_query q s Ha).
    destruct (step_identity_storage (Navigate q) s) as (U & _).
    rewrite U. reflexivity.
  - unfold Chat.step. rewrite Ha, D. unfold Chat.roomFor. rewrite Ha.
    destruct (userEntity (st s)); [|reflexivity].
    rewrite andb_false_r. reflexivity.
Qed.

(** X3 (handlers belong to the current session). In every reachable
    state, handlers are attached exactly when the component is connected
    and has a room id; the render they close over is then connected and
    has the current room id and the current identity. *)
Theorem handlers_follow_session (s : Sys) :
  reachable s ->
  (forall r, handlers s = Some r ->
             connectionStatus (st s) = conn_connected /\
             JS.truthyOpt (roomId (st s)) = true /\
             connectionStatus r = conn_connected /\
             roomId r = roomId (st s) /\
             userEntity r = userEntity (st s)) /\
  (handlers s = None ->
   connectionStatus (st s) <> conn_connected \/
   JS.truthyOpt (roomId (st s)) = false).
Proof.
  intros Hr. pose proof (reachable_attachedFor s Hr) as A.
  unfold attachedFor in A. split.
  - intros r Hh. rewrite Hh in A. destruct A as (A1 & A2 & A3 & A4).
    repeat split; auto. apply attached_identity; assumption.
  - intros Hh. rewrite Hh in A. exact A.
Qed.

(** X4 (room membership). By the join and leave calls made so far, a
    reachable component that is connected and has a room id is in that
    room and in the central channel, and in no other; otherwise it is in
    no room and no channel. *)
Theorem joined_room_is_current (s : Sys) :
  reachable s ->
  if (if ConnectionStatus_dec (connectionStatus (st s)) conn_connected
      then true else false) && JS.truthyOpt (roomId (st s))
  then exists room,
      roomId (st s) = Some room /\
      joinedRooms (socketCalls s) = [room] /\
      joinedChannels (socketCalls s) = [centralChannelId]
  else joinedRooms (socketCalls s) = [] /\
       joinedChannels (socketCalls s) = [].
Proof.
  intros Hr. pose proof (reachable_attachedFor s Hr) as A.
  pose proof (reachable_membershipOk s Hr) as M.
  unfold attachedFor in A. unfold membershipOk in M.
  destruct (handlers s) as [r|].
  - destruct A as (_ & A2 & A3 & A4). rewrite A3, A4. simpl.
    destruct M as (room & R & Jr & Jc). exists room.
    repeat split; auto. rewrite <- A2. exact R.
  - destruct (ConnectionStatus_dec (connectionStatus (st s)) conn_connected)
      as [e|n]; simpl; [|exact M].
    destruct A as [A|A]; [contradiction|]. rewrite A. exact M.
Qed.


(** ** Submitting the form *)

Lemma trimStart_snoc (l : JS.text) (c : N) :
  JS.isWhiteSpace c = false -> JS.trimStart (l ++ [c]) = JS.trimStart l ++ [c].
Proof using.
  intros Hc. induction l as [|x l IH]; simpl.
  - rewrite Hc. reflexivity.
  - destruct (JS.isWhiteSpace x); [exact IH | reflexivity].
Qed.

Lemma trimStart_head (l : JS.text) :
  JS.trimStart l = [] \/
  exists c t, JS.trimStart l = c :: t /\ JS.isWhiteSpace c = false.
Proof using.
  induction l as [|x l IH]; simpl; [left; reflexivity|].
  destruct (JS.isWhiteSpace x) eqn:E; [exact IH|].
  right. exists x, l. split; [reflexivity | exact E].
Qed.

Lemma trimStart_idem (l : JS.text) :
  JS.trimStart (JS.trimStart l) = JS.trimStart l.
Proof using.
  destruct (trimStart_head l) as [E|(c & t & E & Hc)]; rewrite E; simpl;
    [reflexivity|]. rewrite Hc. reflexivity.
Qed.

Lemma trimEnd_cons (c : N) (t : JS.text) :
  JS.isWhiteSpace c = false -> JS.trimEnd (c :: t) = c :: JS.trimEnd t.
Proof using.
  intros Hc. unfold JS.trimEnd. simpl.
  rewrite (trimStart_snoc _ _ Hc), rev_app_distr. reflexivity.
Qed.

Lemma trimEnd_idem (l : JS.text) : JS.trimEnd (JS.trimEnd l) = JS.trimEnd l.
Proof using.
  unfold JS.trimEnd. rewrite rev_involutive, trimStart_idem. reflexivity.
Qed.

(** [trim] of a trimmed text is that text. *)
Lemma trim_idem (l : JS.text) : JS.trim (JS.trim l) = JS.trim l.
Proof using.
  unfold JS.trim.
  destruct (trimStart_head l) as [E|(c & t & E & Hc)]; rewrite E.
  - reflexivity.
  - rewrite (trimEnd_cons c t Hc). simpl. rewrite Hc.
    rewrite <- (trimEnd_cons c t Hc). apply trimEnd_idem.
Qed.

Lemma sendMessage_returns (r : State) (messageText : JS.text) :
  returns (sendMessage r messageText).
Proof. rets. Qed.

Lemma canSend_true_iff (r : State) (messageText : JS.text) :
  canSend r messageText = true <->
  JS.trim messageText <> [] /\ JS.truthyOpt (userEntity r) = true /\
  JS.truthyOpt (roomId r) = true /\ inputDisabled r = false /\
  connectionStatus r = conn_connected.
Proof using.
  unfold canSend.
  destruct (JS.trim messageText) as [|c t]; simpl.
  - split; [discriminate | intros (H & _); congruence].
  - destruct (JS.truthyOpt (userEntity r)); simpl;
      [|split; [discriminate | intros (_ & H & _); discriminate]].
    destruct (JS.truthyOpt (roomId r)); simpl;
      [|split; [discriminate | intros (_ & _ & H & _); discriminate]].
    destruct (inputDisabled r); simpl;
      [split; [discriminate | intros (_ & _ & _ & H & _); discriminate]|].
    destruct (ConnectionStatus_dec (connectionStatus r) conn_connected).
    + split; [|reflexivity]. intros _. repeat split; auto. discriminate.
    + split; [discriminate | intros (_ & _ & _ & _ & H); contradiction].
Qed.

(** X5 (submit). Submitting a blank input does nothing at all. Submitting
    anything else clears the input and otherwise does what [sendMessage]
    does with the trimmed input: when [sendMessage] refuses it (input
    disabled, not connected, no identity or room), the typed text is gone
    and nothing was sent; and it is never the text check that refuses it,
    the second trim changes nothing. *)
Theorem submit_clears_input (r : State) (s : Sys) :
  if JS.truthyText (JS.trim (input r)) then
    exec (handleSubmit r) s =
    mapState (withInput [])
             (exec (sendMessage r (JS.trim (input r))) s) /\
    (canSend r (JS.trim (input r)) = false ->
     exec (handleSubmit r) s = mapState (withInput []) s) /\
    (canSend r (JS.trim (input r)) = true <->
     JS.truthyOpt (userEntity r) = true /\ JS.truthyOpt (roomId r) = true /\
     inputDisabled r = false /\ connectionStatus r = conn_connected)
  else handleSubmit r s = (Ok tt, s).
Proof.
  unfold Chat.handleSubmit.
  destruct (JS.truthyText (JS.trim (input r))) eqn:T; [|reflexivity].
  assert (E : exec (sendMessage r (JS.trim (input r)) ;; setInput []) s =
              mapState (withInput [])
                       (exec (sendMessage r (JS.trim (input r))) s))
    by (rewrite exec_seq by apply sendMessage_returns; reflexivity).
  split; [exact E|]. split.
  - intros C. rewrite E. unfold exec.
    rewrite (sendMessage_blocked _ _ _ C). reflexivity.
  - rewrite canSend_true_iff, trim_idem.
    destruct (JS.trim (input r)); [discriminate|].
    split; [intros (_ & H); exact H | intros H; split; [discriminate|exact H]].
Qed.


(** ** Turn taking *)

Lemma step_emit (ev : Event) (h : State -> M unit) (r : State) (s : Sys) :
  JS.truthy agentId = true ->
  handlers s = Some r ->
  dispatch ev = emit h ->
  sameDeps (st s) (st (exec (h r) s)) ->
  step ev s = exec (h r) s.
Proof.
  intros Ha Hh Hd D.
  assert (E : exec (dispatch ev) s = exec (h r) s)
    by (unfold exec; rewrite Hd, (dispatch_attached h r s Hh); reflexivity).
  rewrite step_same; [exact E | exact Ha | rewrite E; exact D].
Qed.

Lemma step_ControlMessage (c : ControlMessageData) (r : State) (s : Sys) :
  JS.truthy agentId = true ->
  handlers s = Some r ->
  step (ControlMessage c) s =
  if string_dec (cd_action c) "disable_input"
  then mapState (withInputDisabled true) s
  else if string_dec (cd_action c) "enable_input"
       then mapState (withInputDisabled false) s
       else s.
Proof.
  intros Ha Hh.
  rewrite (step_emit (ControlMessage c) (fun _ => handleControlMessage c)
             r s Ha Hh eq_refl);
    unfold exec, handleControlMessage;
    destruct (string_dec (cd_action c) "disable_input");
    [reflexivity | | repeat split |];
    destruct (string_dec (cd_action c) "enable_input");
    first [reflexivity | repeat split].
Qed.

Lemma step_MessageComplete (r : State) (s : Sys) :
  JS.truthy agentId = true ->
  handlers s = Some r ->
  step MessageComplete s =
  mapState (fun x => withInputDisabled false (withIsAgentThinking false x)) s.
Proof.
  intros Ha Hh.
  rewrite (step_emit MessageComplete (fun _ => handleMessageComplete)
             r s Ha Hh eq_refl);
    [reflexivity | repeat split].
Qed.

Lemma step_SendMessage_blocked (s : Sys) (messageText : JS.text) :
  canSend (st s) messageText = false ->
  step (SendMessage messageText) s = s.
Proof.
  intros C. unfold Chat.step. destruct (JS.truthy agentId); [|reflexivity].
  assert (E : exec (dispatch (SendMessage messageText)) s = s).
  { unfold exec, Chat.dispatch, bind, gets.
    rewrite (sendMessage_blocked _ _ _ C). reflexivity. }
  rewrite E. apply flush_same, sameDeps_refl.
Qed.

Lemma canSend_disabled (r : State) (messageText : JS.text) :
  inputDisabled r = true -> canSend r messageText = false.
Proof using.
  intros H. apply canSend_false_iff. auto.
Qed.

(** X6 (control messages). A control message delivered to the attached
    handlers writes [inputDisabled] and nothing else: [disable_input] sets
    it, [enable_input] clears it, any other action leaves the system as it
    is. While the input is disabled by the server every [sendMessage] is
    dropped, whatever the text. *)
Theorem control_message_locks_input (s : Sys) (r : State)
        (c : ControlMessageData) (messageText : JS.text) :
  JS.truthy agentId = true ->
  handlers s = Some r ->
  let s' := step (ControlMessage c) s in
  (cd_action c = "disable_input" ->
   s' = mapState (withInputDisabled true) s /\
   step (SendMessage messageText) s' = s') /\
  (cd_action c = "enable_input" ->
   s' = mapState (withInputDisabled false) s) /\
  (cd_action c <> "disable_input" -> cd_action c <> "enable_input" ->
   s' = s).
Proof.
  intros Ha Hh s'. unfold s'. rewrite (step_ControlMessage c r s Ha Hh).
  split; [|split].
  - intros E. destruct (string_dec (cd_action c) "disable_input");
      [|contradiction].
    split; [reflexivity|].
    apply step_SendMessage_blocked, canSend_disabled. reflexivity.
  - intros E. rewrite E. reflexivity.
  - intros N1 N2.
    destruct (string_dec (cd_action c) "disable_input"); [contradiction|].
    destruct (string_dec (cd_action c) "enable_input"); [contradiction|].
    reflexivity.
Qed.

(** X7 (one message in flight). After a message went out, a second
    [sendMessage] is dropped until the input is enabled again. A
    message-complete event, or an [enable_input] control message, puts
    the send path back where it was: a text can be sent after it exactly
    when it could be sent before the first message. *)
Theorem one_message_in_flight (s : Sys) (r : State) (first next : JS.text) :
  JS.truthy agentId = true ->
  handlers s = Some r ->
  canSend (st s) first = true ->
  let s1 := step (SendMessage first) s in
  step (SendMessage next) s1 = s1 /\
  canSend (st (step MessageComplete s1)) next = canSend (st s) next /\
  canSend (st (step (ControlMessage (mkControl "enable_input")) s1)) next
  = canSend (st s) next.
Proof.
  intros Ha Hh C s1.
  assert (E1 : s1 = exec (sendMessage (st s) first) s)
    by (apply step_SendMessage; assumption).
  unfold exec in E1. rewrite (sendMessage_sent _ _ _ C) in E1. simpl in E1.
  assert (H1 : handlers s1 = Some r) by (rewrite E1; exact Hh).
  apply canSend_true_iff in C. destruct C as (_ & _ & _ & Hi & _).
  split; [|split].
  - apply step_SendMessage_blocked, canSend_disabled. rewrite E1. reflexivity.
  - rewrite (step_MessageComplete r s1 Ha H1), E1. unfold canSend. simpl.
    rewrite Hi. reflexivity.
  - rewrite (step_ControlMessage _ r s1 Ha H1), E1. unfold canSend. simpl.
    rewrite Hi. reflexivity.
Qed.


(** ** Polling the connection *)

Lemma step_Elapse (ms : N) (s : Sys) :
  JS.truthy agentId = true ->
  step (Elapse ms) s =
  mkSys (st s) (initStartedRef s) (handlers s) (now s + ms)%N (uuidsDrawn s)
        (timers s) (socketCalls s) (requests s) (socketUp s) (storage s).
Proof.
  intros Ha. rewrite step_same; [reflexivity | exact Ha | repeat split].
Qed.

Lemma step_poll_down (s : Sys) (due : N) (rest : list (N * TimerAction)) :
  JS.truthy agentId = true ->
  socketUp s = false ->
  timers s = (due, CheckConnection) :: rest -> (due <= now s)%N ->
  step TimerFires s =
  mkSys (st s) (initStartedRef s) (handlers s) (now s) (uuidsDrawn s)
        (schedule ((now s + 1000)%N, CheckConnection) rest)
        (socketCalls s) (requests s) (socketUp s) (storage s).
Proof.
  intros Ha Hup E D. apply N.leb_le in D.
  assert (R : exec (dispatch TimerFires) s =
              mkSys (st s) (initStartedRef s) (handlers s) (now s)
                    (uuidsDrawn s)
                    (schedule ((now s + 1000)%N, CheckConnection) rest)
                    (socketCalls s) (requests s) (socketUp s) (storage s)).
  { unfold exec, Chat.dispatch, fireTimer, bind, gets. rewrite E, D.
    simpl. unfold checkConnection, bind, isSocketConnected, gets. simpl.
    rewrite Hup. reflexivity. }
  rewrite step_same; [exact R | exact Ha |]. rewrite R. repeat split.
Qed.

Lemma polls_run (n : nat) :
  JS.truthy agentId = true ->
  forall s,
    socketUp s = false ->
    timers s = [((now s + 1000)%N, CheckConnection)] ->
    run (polls n) s =
    mkSys (st s) (initStartedRef s) (handlers s)
          (now s + 1000 * N.of_nat n)%N (uuidsDrawn s)
          [((now s + 1000 * N.of_nat n + 1000)%N, CheckConnection)]
          (socketCalls s) (requests s) (socketUp s) (storage s).
Proof.
  intros Ha. induction n as [|n IH]; intros s Hup T.
  - cbn [polls Chat.run fold_left]. change (N.of_nat 0) with 0%N.
    rewrite N.mul_0_r, N.add_0_r, <- T. destruct s; reflexivity.
  - change (run (polls (S n)) s)
      with (run (polls n) (step TimerFires (step (Elapse 1000) s))).
    rewrite (step_Elapse 1000 s Ha).
    rewrite (step_poll_down _ (now s + 1000)%N [] Ha);
      [| exact Hup | exact T | simpl; lia].
    rewrite IH; [| exact Hup | reflexivity].
    cbn [st initStartedRef handlers now uuidsDrawn timers socketCalls
         requests socketUp storage].
    rewrite Nat2N.inj_succ.
    replace (now s + 1000 + 1000 * N.of_nat n)%N
      with (now s + 1000 * N.succ (N.of_nat n))%N by lia.
    reflexivity.
Qed.

Lemma roomDepsChanged_eq (a b : State) :
  query a = query b -> userEntity a = userEntity b ->
  roomDepsChanged a b = false.
Proof using.
  intros Q U. unfold roomDepsChanged. rewrite Q, U.
  destruct (string_dec (query b) (query b)); [|congruence].
  destruct (optstring_dec (userEntity b) (userEntity b));
    [reflexivity | congruence].
Qed.

Lemma connectionDepsChanged_eq (a b : State) :
  userEntity a = userEntity b -> serverStatus a = serverStatus b ->
  connectionDepsChanged a b = false.
Proof using.
  intros U V. unfold connectionDepsChanged. rewrite U, V.
  destruct (optstring_dec (userEntity b) (userEntity b)); [|congruence].
  destruct (ServerStatus_dec (serverStatus b) (serverStatus b));
    [reflexivity | congruence].
Qed.

(** When an event leaves the query, the identity and the server status
    alone, rendering leaves the connection status and the room id as the
    event left them. *)
Lemma commit_session (prev : State) (s : Sys) :
  roomDepsChanged prev (st s) = false ->
  connectionDepsChanged prev (st s) = false ->
  sessionIs (connectionStatus (st s)) (roomId (st s)) (exec (commit prev) s).
Proof.
  intros Hr Hc. destruct (commit_rounds prev s) as (E & D). rewrite E.
  assert (S1 : sessionIs (connectionStatus (st s)) (roomId (st s))
                 (exec (runEffects prev (st s)) s))
    by (apply runEffects_session; [exact Hr | exact Hc | split; reflexivity]).
  destruct S1 as (C1 & R1), D as (_ & _ & _ & C2 & R2).
  split; congruence.
Qed.

Ltac timers_leaf :=
  idtac;
  let s := fresh "s" in
  let H := fresh "H" in
  intros s H; simpl in *; exact H.

Lemma runEffects_timers (q : list (N * TimerAction)) (prev cur : State) :
  preserves (fun s => timers s = q) (runEffects prev cur).
Proof. pres timers_leaf. Qed.

Lemma step_poll_up (s : Sys) (due : N) (rest : list (N * TimerAction)) :
  JS.truthy agentId = true ->
  socketUp s = true ->
  timers s = (due, CheckConnection) :: rest -> (due <= now s)%N ->
  connectionStatus (st (step TimerFires s)) = conn_connected /\
  timers (step TimerFires s) = rest.
Proof.
  intros Ha Hup E D. apply N.leb_le in D.
  assert (R : exec (dispatch TimerFires) s =
              mkSys (withConnectionStatus conn_connected (st s))
                    (initStartedRef s) (handlers s) (now s) (uuidsDrawn s)
                    rest (socketCalls s) (requests s) (socketUp s)
                    (storage s)).
  { unfold exec, Chat.dispatch, fireTimer, bind, gets. rewrite E, D.
    simpl. unfold checkConnection, bind, isSocketConnected, gets. simpl.
    rewrite Hup. reflexivity. }
  unfold Chat.step. rewrite Ha, R. split.
  - apply (commit_session (st s)).
    + apply roomDepsChanged_eq; reflexivity.
    + apply connectionDepsChanged_eq; reflexivity.
  - apply (flush_preserves (fun x => timers x = rest)); [|reflexivity].
    intros prev s0 _. apply runEffects_timers.
Qed.

(** X8 (polling). While the socket is down the connection poll goes on
    for ever: after any number of one-second rounds the state of the
    component is what it was, nothing was sent or requested, and the next
    poll is armed one second ahead. The poll that finds the socket up
    marks the connection established and arms no other. *)
Theorem polling_never_gives_up (s : Sys) (n : nat) :
  JS.truthy agentId = true ->
  socketUp s = false ->
  timers s = [((now s + 1000)%N, CheckConnection)] ->
  let s' := run (polls n) s in
  st s' = st s /\
  now s' = (now s + 1000 * N.of_nat n)%N /\
  timers s' = [((now s' + 1000)%N, CheckConnection)] /\
  socketCalls s' = socketCalls s /\ requests s' = requests s /\
  let up := run [SocketStatus true; Elapse 1000; TimerFires] s' in
  connectionStatus (st up) = conn_connected /\ timers up = [].
Proof.
  intros Ha Hup T s'. unfold s'. rewrite (polls_run n Ha s Hup T).
  cbn [st now timers socketCalls requests].
  do 5 (split; [reflexivity|]).
  cbn [Chat.run fold_left].
  rewrite (step_same (SocketStatus true)); [| exact Ha | repeat split].
  rewrite (step_Elapse 1000 _ Ha).
  apply (step_poll_up _ (now s + 1000 * N.of_nat n + 1000)%N []);
    [exact Ha | reflexivity | reflexivity | simpl; lia].
Qed.


(** ** A server that is not online *)

Lemma connectionEffect_not_online (r : State) (s : Sys) :
  serverStatus r <> server_online -> connectionEffect r s = (Ok tt, s).
Proof.
  intros H. unfold Chat.connectionEffect.
  destruct (ServerStatus_dec (serverStatus r) server_online);
    [contradiction|].
  cbn [negb]. rewrite orb_true_r. reflexivity.
Qed.

Ltac offline_leaf :=
  idtac;
  let s := fresh "s" in
  let H := fresh "H" in
  intros s H; unfold registrations in *; simpl in *;
  rewrite ?filter_app; simpl; rewrite ?app_nil_r; exact H.

Lemma runEffects_not_online (v : ServerStatus) (c : ConnectionStatus)
      (l : list Request) (prev : State) (s0 : Sys) :
  v <> server_online ->
  serverStatus (st s0) = v ->
  preserves (fun x => serverStatus (st x) = v /\
                      connectionStatus (st x) = c /\ registrations x = l)
            (runEffects prev (st s0)).
Proof.
  intros Hv H0. unfold Chat.runEffects.
  apply preserves_bind; [pres offline_leaf | intros _].
  apply preserves_bind; [pres offline_leaf | intros _].
  apply preserves_bind; [| intros _; pres offline_leaf].
  apply preserves_when. intros x Hx.
  rewrite connectionEffect_not_online by (rewrite H0; exact Hv). exact Hx.
Qed.

Lemma dispatch_registrations (l : list Request) (ev : Event) :
  preserves (fun x => registrations x = l) (dispatch ev).
Proof. destruct ev; pres offline_leaf. Qed.

Lemma commit_serverStatus (prev : State) (s : Sys) :
  serverStatus (st (exec (commit prev) s)) = serverStatus (st s).
Proof.
  assert (P : inputsAre (query (st s)) (userEntity (st s))
                        (serverStatus (st s)) (exec (commit prev) s)).
  { apply (flush_preserves
             (inputsAre (query (st s)) (userEntity (st s))
                        (serverStatus (st s)))).
    - intros prev' s0 _. apply runEffects_inputs.
    - repeat split. }
  apply P.
Qed.

Lemma commit_not_online (c : ConnectionStatus) (prev : State) (s : Sys) :
  serverStatus (st s) <> server_online ->
  connectionStatus (st s) = c ->
  let s' := exec (commit prev) s in
  connectionStatus (st s') = c /\ registrations s' = registrations s.
Proof.
  intros Hv Hc s'.
  assert (P : (fun x => serverStatus (st x) = serverStatus (st s) /\
                        connectionStatus (st x) = c /\
                        registrations x = registrations s) s').
  { apply (flush_preserves
             (fun x => serverStatus (st x) = serverStatus (st s) /\
                       connectionStatus (st x) = c /\
                       registrations x = registrations s)).
    - intros prev' s0 (V0 & _). apply runEffects_not_online; assumption.
    - repeat split. exact Hc. }
  destruct P as (_ & P1 & P2). split; assumption.
Qed.

(** X9 (server not online). A ping that answers offline, or fails, marks
    the server offline and the connection in error, and detaches the
    handlers. And no step that ends with the server not online starts a
    registration request: the connect sequence waits for a ping that
    answers online. *)
Theorem failed_ping_blocks_connect (s : Sys) (r : option bool) (ev : Event) :
  JS.truthy agentId = true ->
  reachable s ->
  r <> Some true ->
  let s' := step (PingSettled r) s in
  serverStatus (st s') = server_offline /\
  connectionStatus (st s') = conn_error /\
  handlers s' = None /\
  registrations s' = registrations s /\
  (serverStatus (st (step ev s)) <> server_online ->
   registrations (step ev s) = registrations s).
Proof.
  intros Ha Hr Hne s'.
  assert (G : forall e x,
             serverStatus (st (step e x)) <> server_online ->
             registrations (step e x) = registrations x).
  { intros e x. unfold Chat.step. rewrite Ha.
    rewrite commit_serverStatus. intros Hv.
    destruct (commit_not_online _ (st x) (exec (dispatch e) x) Hv eq_refl)
      as (_ & R).
    rewrite R. apply (dispatch_registrations (registrations x) e).
    reflexivity. }
  assert (D : exec (dispatch (PingSettled r)) s =
              mapState (fun x => withConnectionStatus conn_error
                                   (withServerStatus server_offline x)) s).
  { destruct r as [[|]|]; [congruence | reflexivity | reflexivity]. }
  assert (V : serverStatus (st s') = server_offline).
  { unfold s', Chat.step. rewrite Ha, commit_serverStatus, D. reflexivity. }
  assert (C : connectionStatus (st s') = conn_error).
  { unfold s', Chat.step. rewrite Ha.
    apply (commit_not_online conn_error); rewrite D;
      [discriminate | reflexivity]. }
  split; [exact V|]. split; [exact C|]. split; [|split].
  - pose proof (reachable_attachedFor s'
                  (step_reachable (PingSettled r) s Hr)) as A.
    unfold attachedFor in A. destruct (handlers s'); [|reflexivity].
    destruct A as (_ & _ & A & _). congruence.
  - apply G. change (serverStatus (st s') <> server_online).
    rewrite V. discriminate.
  - apply G.
Qed.

(** ** The transcript *)

Ltac loading_leaf :=
  idtac;
  let s := fresh "s" in
  let H := fresh "H" in
  intros s H; simpl in *; solve [exact H | reflexivity].

Ltac prefix_leaf :=
  idtac;
  let s := fresh "s" in
  let H := fresh "H" in
  intros s H; simpl in *;
  first [ exact H
        | let l := fresh "l" in
          destruct H as (l & H); rewrite H, <- app_assoc; eexists;
          reflexivity ].

(** X10 (history spinner). The component mounts showing the history
    spinner instead of the transcript. No event replaces the spinner by
    the transcript but the settling of the history fetch, which always
    does: until then nothing that arrives is shown. *)
Theorem loading_until_history_settles (s : Sys) (ev : Event)
        (q : string) (stored : option string) (t0 : N)
        (result : option (list ChatMessage)) :
  messageArea (st (mount q stored t0)) = LoadingHistory /\
  (messageArea (st s) = LoadingHistory ->
   messageArea (st (step ev s)) <> LoadingHistory ->
   exists r, ev = HistorySettled r) /\
  (JS.truthy agentId = true ->
   exists shown thinking,
     messageArea (st (step (HistorySettled result) s)) =
     Transcript shown thinking).
Proof.
  assert (A : forall r, messageArea r = LoadingHistory <->
                        isLoadingHistory r = true).
  { intros r. unfold messageArea.
    destruct (isLoadingHistory r); split; congruence. }
  split; [|split].
  - apply A. unfold Chat.mount.
    set (s0 := mkSys (initialState q) false None t0 0 [] [] [] false stored).
    assert (I : (fun x => isLoadingHistory (st x) = true)
                  (exec (mountEffects (initialState q)) s0)).
    { assert (P : preserves (fun x => isLoadingHistory (st x) = true)
                            (mountEffects (initialState q)))
        by pres loading_leaf.
      apply P. reflexivity. }
    destruct (JS.truthy agentId); [|exact I].
    apply (flush_preserves (fun x => isLoadingHistory (st x) = true));
      [|exact I].
    intros prev s1 _. pres loading_leaf.
  - intros L U. apply A in L.
    assert (K : (forall r, ev <> HistorySettled r) ->
                isLoadingHistory (st (step ev s)) = true).
    { intros Hev.
      apply (step_preserves (fun x => isLoadingHistory (st x) = true) ev).
      - destruct ev; try (exfalso; eapply Hev; reflexivity);
          pres loading_leaf.
      - intros prev s0 _. pres loading_leaf.
      - exact L. }
    destruct ev as [p|nq|reg|up|ms| |d|c| |h|v| |t];
      try (exfalso; apply U, A, K; discriminate).
    exists h. reflexivity.
  - intros Ha. unfold messageArea.
    rewrite step_same; [| exact Ha |]; destruct result;
      first [repeat split; fail | simpl; eauto].
Qed.

(** X11 (append only). No event but the settling of the history fetch
    removes, replaces or reorders a stored message: after it the list is
    the list before, followed by what the event appended. *)
Theorem messages_append_only (s : Sys) (ev : Event) :
  (forall r, ev <> HistorySettled r) ->
  exists appended,
    messages (st (step ev s)) = messages (st s) ++ appended.
Proof.
  intros Hev.
  apply (step_preserves
           (fun x => exists l, messages (st x) = messages (st s) ++ l) ev).
  - destruct ev; try (exfalso; eapply Hev; reflexivity); pres prefix_leaf.
  - intros prev s0 _. pres prefix_leaf.
  - exists []. rewrite app_nil_r. reflexivity.
Qed.


(** ** What is rendered *)

Lemma step_PingSettled_failed (s : Sys) (p : option bool) :
  JS.truthy agentId = true -> p <> Some true ->
  serverStatus (st (step (PingSettled p) s)) = server_offline.
Proof.
  intros Ha Hp. unfold Chat.step. rewrite Ha, commit_serverStatus.
  destruct p as [[|]|]; [congruence | reflexivity | reflexivity].
Qed.

(** X12 (connection banner). [renderConnectionStatus] always renders a
    banner: its final [return null] is never reached. The server status
    is looked at first: the banner says connected exactly when the server
    is online and the connection established, and after a ping that
    answered offline or failed it says that the server is offline, not
    that the connection failed, although the connection status is in
    error too. *)
Theorem banner_server_first (r : State) (s : Sys) (p : option bool) :
  (exists b, renderConnectionStatus r = Some b) /\
  (renderConnectionStatus r = Some ConnectedToAgent <->
   serverStatus r = server_online /\ connectionStatus r = conn_connected) /\
  (renderConnectionStatus r = Some ConnectionError <->
   serverStatus r = server_online /\ connectionStatus r = conn_error) /\
  (JS.truthy agentId = true -> p <> Some true ->
   renderConnectionStatus (st (step (PingSettled p) s)) = Some ServerOffline).
Proof.
  split; [|split; [|split]].
  - unfold renderConnectionStatus.
    destruct (serverStatus r), (connectionStatus r); eauto.
  - unfold renderConnectionStatus.
    destruct (serverStatus r), (connectionStatus r);
      split; try discriminate; try (intros (A & B); discriminate); auto.
  - unfold renderConnectionStatus.
    destruct (serverStatus r), (connectionStatus r);
      split; try discriminate; try (intros (A & B); discriminate); auto.
  - intros Ha Hp. unfold renderConnectionStatus.
    rewrite (step_PingSettled_failed s p Ha Hp). reflexivity.
Qed.

End ChatProperties.

(** * Examples on the sample deployment *)

Local Open Scope list_scope.

Example trim_inner_space :
  JS.trim (JS.lit "  docs for  agents ") = JS.lit "docs for  agents".
Proof. reflexivity. Qed.

Example trim_blank : JS.trim (9 :: 32 :: 160 :: 12288 :: 10 :: nil)%N = [].
Proof. reflexivity. Qed.

Lemma connected_reachable :
  reachable Sample.agent Sample.source Sample.uuids Sample.roomOf
            Sample.connected.
Proof.
  exists "", None, 0%N, Sample.connectTrace. vm_compute. reflexivity.
Defined.

Lemma waiting_reachable :
  reachable Sample.agent Sample.source Sample.uuids Sample.roomOf
            Sample.waiting.
Proof.
  exists "", None, 0%N, (Sample.connectTrace ++ [SendMessage Sample.ping]).
  vm_compute. reflexivity.
Defined.

(** The echo of the message we sent leaves the one optimistic copy. *)
Lemma self_echo_suppression_witness :
  Sample.step (MessageBroadcast Sample.echo) Sample.waiting = Sample.waiting.
Proof.
  refine (proj2 (self_echo_suppression Sample.agent Sample.source
                   Sample.uuids Sample.roomOf Sample.waiting Sample.echo
                   waiting_reachable _)).
  vm_compute. reflexivity.
Defined.

(** The reply of the agent stops the thinking indicator. *)
Lemma agent_classification_witness :
  isAgentThinking
    (st (Sample.step (MessageBroadcast Sample.reply) Sample.waiting)) = false.
Proof.
  refine (proj1 (proj2 (agent_classification Sample.agent Sample.source
                          Sample.uuids Sample.roomOf Sample.waiting
                          Sample.attached Sample.reply
                          _ waiting_reachable _ _ _))).
  - vm_compute. reflexivity.
  - vm_compute. reflexivity.
  - vm_compute. discriminate.
  - left. vm_compute. reflexivity.
Defined.

(** A message while the input is disabled, an empty message and a blank
    one go nowhere. *)
Lemma send_precondition_gating_witness :
  Sample.step (SendMessage (JS.lit "x")) Sample.waiting = Sample.waiting /\
  Sample.step (SendMessage (JS.lit "")) Sample.connected = Sample.connected /\
  Sample.step (SendMessage (JS.lit " ")) Sample.connected = Sample.connected.
Proof.
  split; [|split].
  - refine (proj2 (send_precondition_gating Sample.agent Sample.source
                     Sample.uuids Sample.roomOf (st Sample.waiting)
                     (JS.lit "x") Sample.waiting _) eq_refl).
    right; right; right; left. vm_compute. reflexivity.
  - refine (proj2 (send_precondition_gating Sample.agent Sample.source
                     Sample.uuids Sample.roomOf (st Sample.connected)
                     (JS.lit "") Sample.connected _) eq_refl).
    left. vm_compute. reflexivity.
  - refine (proj2 (send_precondition_gating Sample.agent Sample.source
                     Sample.uuids Sample.roomOf (st Sample.connected)
                     (JS.lit " ") Sample.connected _) eq_refl).
    left. vm_compute. reflexivity.
Defined.

(** The first message goes out to the central channel, once. *)
Lemma send_success_witness :
  inputDisabled
    (st (exec (sendMessage Sample.source Sample.uuids (st Sample.connected)
                 Sample.ping) Sample.connected)) = true.
Proof.
  refine (proj1 (proj2 (proj2 (proj2
            (send_success Sample.source Sample.uuids Sample.connected
               Sample.ping _ _ _ _ _))))).
  - vm_compute. discriminate.
  - vm_compute. reflexivity.
  - vm_compute. reflexivity.
  - vm_compute. reflexivity.
  - vm_compute. reflexivity.
Defined.

(** ** The send timeout *)

(** The timeout clears the input lock although a classified reply of the
    agent came first: the agent replies 5 s after the send, which stops
    the thinking indicator and leaves the input disabled and the timer
    pending; at 30 s the timer fires and enables the input. *)
Lemma send_timeout_after_agent_reply :
  let replied :=
    Sample.run [Elapse 5000; MessageBroadcast Sample.reply] Sample.waiting in
  let fired := Sample.run [Elapse 25000; TimerFires] replied in
  length (messages (st replied)) = 2 /\
  isAgentThinking (st replied) = false /\
  inputDisabled (st replied) = true /\
  timers replied = [(31000%N, SendTimeout)] /\
  now fired = 31000%N /\
  inputDisabled (st fired) = false /\ timers fired = [].
Proof. vm_compute. repeat split. Qed.

(** The timer of an earlier message is still pending in a later turn: the
    turn completes after 5 s and a second message goes out at 10 s; the
    timer of the first message fires at 30 s and clears both flags, 20 s
    into the second turn, whose own timer is still pending. *)
Example stale_send_timeout :
  let second :=
    Sample.run [Elapse 5000; MessageComplete; Elapse 5000;
                SendMessage Sample.ping] Sample.waiting in
  let early := Sample.run [Elapse 20000; TimerFires] second in
  inputDisabled (st second) = true /\ isAgentThinking (st second) = true /\
  timers second = [(31000%N, SendTimeout); (41000%N, SendTimeout)] /\
  now early = 31000%N /\
  inputDisabled (st early) = false /\ isAgentThinking (st early) = false /\
  timers early = [(41000%N, SendTimeout)].
Proof. vm_compute. repeat split. Qed.

(** Thirty seconds after a message nobody answered. *)
Lemma send_timeout_unconditional_witness :
  let s2 :=
    Sample.run [SendMessage Sample.ping; Elapse 30000; TimerFires]
               Sample.connected in
  now s2 = (now Sample.connected + 30000)%N /\
  inputDisabled (st s2) = false /\ isAgentThinking (st s2) = false /\
  messages (st s2) =
  messages (st Sample.connected) ++
  [mkChatMessage (Sample.uuids (uuidsDrawn Sample.connected)) USER_NAME
     Sample.ping (userEntity (st Sample.connected))
     (roomId (st Sample.connected)) (now Sample.connected)
     (Some Sample.source) None None false] /\
  timers s2 = [].
Proof.
  refine (proj2 (proj2 (proj2
            (send_timeout_unconditional Sample.agent Sample.source
               Sample.uuids Sample.roomOf Sample.connected Sample.ping
               _ _))) _);
    vm_compute; reflexivity.
Defined.

(** ** The history latch *)



(** ** Message ids *)

(** The same broadcast delivered twice is stored twice, under one id. *)
Lemma duplicate_message_ids :
  let once := Sample.run [MessageBroadcast Sample.reply] Sample.connected in
  let twice := Sample.step (MessageBroadcast Sample.reply) once in
  reachable Sample.agent Sample.source Sample.uuids Sample.roomOf twice /\
  NoDup (ids (st once)) /\
  ids (st twice) = ["m-1"; "m-1"] /\
  ~ NoDup (ids (st twice)).
Proof.
  split; [|split; [|split]].
  - exists "", None, 0%N,
      (Sample.connectTrace ++
       [MessageBroadcast Sample.reply; MessageBroadcast Sample.reply]).
    vm_compute. reflexivity.
  - vm_compute. repeat constructor. intros [].
  - vm_compute. reflexivity.
  - vm_compute. intros H. inversion H as [|x l Hin _]. apply Hin. left.
    reflexivity.
Qed.

(** With the reply [m-1] stored: the same reply again breaks the
    distinctness of the ids, a reply with an id of its own keeps it, and
    so does a message of the user, whose generated id is new. *)
Lemma message_ids_distinct_iff_fresh_witness :
  let once := Sample.run [MessageBroadcast Sample.reply] Sample.connected in
  let other :=
    mkBroadcast (Some "m-2") None (JS.lit "pong again") Sample.agent None
                (Some centralChannelId) (Some 1700000000001%N) (Some "agent")
                None None in
  ids (st once) = ["m-1"] /\
  ~ NoDup (ids (st (exec (handleMessageBroadcast Sample.agent Sample.uuids
                            Sample.attached Sample.reply) once))) /\
  NoDup (ids (st (exec (handleMessageBroadcast Sample.agent Sample.uuids
                          Sample.attached other) once))) /\
  NoDup (ids (st (exec (sendMessage Sample.source Sample.uuids (st once)
                          Sample.ping) once))).
Proof.
  intros once other.
  assert (Hs : canSend (st once) Sample.ping = true)
    by (vm_compute; reflexivity).
  assert (Hb : Some (bd_senderId Sample.reply) <> userEntity Sample.attached)
    by (vm_compute; discriminate).
  assert (Ho : Some (bd_senderId other) <> userEntity Sample.attached)
    by (vm_compute; discriminate).
  pose proof (message_ids_distinct_iff_fresh Sample.agent Sample.source
                Sample.uuids once Sample.ping Sample.attached Sample.reply
                [] Hs Hb) as T.
  pose proof (message_ids_distinct_iff_fresh Sample.agent Sample.source
                Sample.uuids once Sample.ping Sample.attached other
                [] Hs Ho) as T'.
  split; [vm_compute; reflexivity|]. split; [|split].
  - intros H. apply (proj1 (proj1 (proj2 T))) in H.
    destruct H as (_ & Hn). apply Hn. vm_compute. left. reflexivity.
  - apply (proj2 (proj1 (proj2 T'))). vm_compute.
    split; [repeat constructor; intros [] |].
    intros [H|[]]. discriminate H.
  - apply (proj2 (proj1 T)). vm_compute.
    split; [repeat constructor; intros [] |].
    intros [H|[]]. discriminate H.
Defined.

(** ** The input lock *)

(** The reply of the agent leaves the input disabled. *)
Lemma agent_reply_frame_witness :
  inputDisabled
    (st (exec (handleMessageBroadcast Sample.agent Sample.uuids
                 Sample.attached Sample.reply) Sample.waiting)) =
  inputDisabled (st Sample.waiting).
Proof.
  refine (proj1 (proj2 (proj1
            (agent_reply_frame Sample.agent Sample.source Sample.uuids
               Sample.roomOf Sample.waiting Sample.attached Sample.reply
               MessageComplete _ _)))).
  - vm_compute. discriminate.
  - left. vm_compute. reflexivity.
Defined.

(** * Further examples and properties across deployments *)

(** X1 (identity). The identity in use is the one in [localStorage]; no
    event changes either; and a component mounted later over the same
    storage, whatever its query and uuid generator, takes the same
    identity without generating one. *)
Theorem identity_persistent (agentId CHAT_SOURCE : string)
        (uuidSequence uuids' : nat -> string)
        (generateQueryRoomId : string -> string -> string)
        (s : Sys) (ev : Event) (q' : string) (t1 : N) :
  reachable agentId CHAT_SOURCE uuidSequence generateQueryRoomId s ->
  JS.truthyOpt (userEntity (st s)) = true ->
  let s1 := step agentId CHAT_SOURCE uuidSequence generateQueryRoomId ev s in
  let s' := mount agentId uuids' generateQueryRoomId q' (storage s) t1 in
  storage s = userEntity (st s) /\
  userEntity (st s1) = userEntity (st s) /\
  storage s1 = storage s /\
  userEntity (st s') = userEntity (st s) /\
  storage s' = storage s /\
  uuidsDrawn s' = 0.
Proof.
  intros Hr Ht s1 s'.
  pose proof (reachable_storage agentId CHAT_SOURCE uuidSequence
                generateQueryRoomId s Hr) as E.
  destruct (step_identity_storage agentId CHAT_SOURCE uuidSequence
              generateQueryRoomId ev s) as (U & S).
  destruct (mount_identity_value agentId uuids' generateQueryRoomId q'
              (storage s) t1) as (A & B & C).
  fold s' in A, B, C. rewrite E in A, C. rewrite Ht in A, C.
  split; [exact E|]. split; [exact U|]. split; [exact S|].
  split; [exact A|]. split; [rewrite B, A; symmetry; exact E | exact C].
Qed.

(** * The constants and the documentation loader *)

Section DocsProperties.

Import Docs.

Variable extensions : list string.

Lemma substring_all (s : string) : substring 0 (String.length s) s = s.
Proof using.
  induction s as [|c s IH]; simpl; [reflexivity | rewrite IH; reflexivity].
Qed.

Lemma substring_suffix (pre ext : string) :
  substring (String.length pre) (String.length ext) (pre ++ ext)%string = ext.
Proof using.
  induction pre as [|c pre IH]; simpl; [apply substring_all | exact IH].
Qed.

Lemma substring_split (s : string) :
  forall n, n <= String.length s ->
            s = (substring 0 n s ++ substring n (String.length s - n) s)%string.
Proof using.
  induction s as [|c s IH]; intros [|n] H; simpl in *;
    try reflexivity; try lia.
  - rewrite substring_all. reflexivity.
  - rewrite <- IH by lia. reflexivity.
Qed.

Lemma length_append (a b : string) :
  String.length (a ++ b)%string = String.length a + String.length b.
Proof using.
  induction a as [|c a IH]; simpl; [reflexivity | rewrite IH; reflexivity].
Qed.

(** [endsWith] is what it says. *)
Lemma endsWith_iff (s ext : string) :
  endsWith s ext = true <-> exists pre, s = (pre ++ ext)%string.
Proof using.
  unfold endsWith. rewrite andb_true_iff, Nat.leb_le, String.eqb_eq. split.
  - intros (L & E).
    exists (substring 0 (String.length s - String.length ext) s).
    pose proof (substring_split s (String.length s - String.length ext)
                  ltac:(lia)) as S.
    replace (String.length s - (String.length s - String.length ext))
      with (String.length ext) in S by lia.
    rewrite E in S. exact S.
  - intros (pre & ->). rewrite length_append. split; [lia|].
    replace (String.length pre + String.length ext - String.length ext)
      with (String.length pre) by lia.
    apply substring_suffix.
Qed.

Lemma hasExtension_iff (rel : list string) :
  hasExtension extensions rel <->
  exists ext pre, In ext extensions /\
                  last rel EmptyString = (pre ++ ext)%string.
Proof.
  unfold hasExtension. rewrite existsb_exists. split.
  - intros (ext & Hin & E). apply endsWith_iff in E.
    destruct E as (pre & E). exists ext, pre. split; assumption.
  - intros (ext & pre & Hin & E). exists ext. split; [exact Hin|].
    apply endsWith_iff. exists pre. exact E.
Qed.

Lemma filesIn_iff (dir p : Path) (dirents : list Dirent) :
  In p (filesIn extensions dir dirents) <->
  exists name, p = dir ++ [name] /\ In (FileEntry name) dirents /\
               hasExtension extensions [name].
Proof.
  unfold filesIn, hasExtension. rewrite in_map_iff. split.
  - intros (d & <- & H). apply filter_In in H. destruct H as (H & E).
    apply filter_In in H. destruct H as (H & F).
    destruct d as [name|name l]; [|discriminate].
    exists name. repeat split; assumption.
  - intros (name & -> & H & E). exists (FileEntry name).
    split; [reflexivity|]. apply filter_In. split; [|exact E].
    apply filter_In. split; [exact H | reflexivity].
Qed.

Lemma last_cons_rel (name : string) (rel : list string) :
  rel <> [] -> last (name :: rel) EmptyString = last rel EmptyString.
Proof. destruct rel; [congruence | reflexivity]. Qed.

Lemma fileAt_nonempty (dirents : list Dirent) (rel : list string) :
  fileAt dirents rel -> rel <> [].
Proof. intros H. destruct H; discriminate. Qed.

(** What a folder entry contributes: the files at and below it. *)
Lemma subFilesOf_iff (d : Dirent) :
  forall (dir p : Path),
    In p (subFilesOf extensions dir d) <->
    exists name sub rel,
      d = DirEntry name (Some sub) /\ p = dir ++ name :: rel /\
      fileAt sub rel /\ hasExtension extensions rel.
Proof.
  induction d as [name | name | name dirents IH] using Dirent_induction;
    intros dir p.
  - simpl. split; [contradiction|]. intros (n & sub & rel & E & _).
    discriminate.
  - simpl. split; [contradiction|]. intros (n & sub & rel & E & _).
    discriminate.
  - rewrite Forall_forall in IH.
    cbn [subFilesOf]. rewrite in_app_iff, filesIn_iff, in_flat_map. split.
    + intros [(n & -> & Hin & He)|(d' & Hin & Hp)].
      * exists name, dirents, [n]. repeat split.
        -- rewrite <- app_assoc. reflexivity.
        -- apply fileHere, Hin.
        -- exact He.
      * apply (IH d' Hin) in Hp.
        destruct Hp as (n' & sub' & rel' & -> & -> & Hf & He).
        exists name, dirents, (n' :: rel'). repeat split.
        -- rewrite <- app_assoc. reflexivity.
        -- eapply fileBelow; eassumption.
        -- unfold hasExtension in *.
           rewrite last_cons_rel by (eapply fileAt_nonempty; eassumption).
           exact He.
    + intros (n & sub & rel & E & -> & Hf & He).
      injection E as <- <-.
      destruct Hf as [ds n' Hin | ds sub' n' rel' Hin Hf'].
      * left. exists n'. repeat split; auto.
        rewrite <- app_assoc. reflexivity.
      * right. exists (DirEntry n' (Some sub')). split; [exact Hin|].
        apply (IH _ Hin). exists n', sub', rel'. repeat split; auto.
        -- rewrite <- app_assoc. reflexivity.
        -- unfold hasExtension in *.
           rewrite last_cons_rel in He
             by (eapply fileAt_nonempty; eassumption).
           exact He.
Qed.

(** X14 (documentation files). [getFilesRecursively] returns exactly the
    entries that are not directories, whose name ends with one of the
    extensions, and that are found in the directory or below it through
    directories that can be listed; each is returned as the path of the
    directory followed by the path to the entry. A directory that cannot
    be listed contributes nothing, the one the traversal starts from
    included, and takes nothing away from the others. *)
Theorem getFilesRecursively_exact (dir p : Path) (dirents before after
                                   : list Dirent) (name : string) :
  (In p (getFilesRecursively dir (Some dirents) extensions) <->
   exists rel, p = dir ++ rel /\ fileAt dirents rel /\
               exists ext pre,
                 In ext extensions /\
                 last rel EmptyString = (pre ++ ext)%string) /\
  getFilesRecursively dir None extensions = [] /\
  getFilesRecursively dir (Some (before ++ DirEntry name None :: after))
                      extensions =
  getFilesRecursively dir (Some (before ++ after)) extensions.
Proof.
  split; [|split].
  - assert (X : (exists rel, p = dir ++ rel /\ fileAt dirents rel /\
                             hasExtension extensions rel) <->
                (exists rel, p = dir ++ rel /\ fileAt dirents rel /\
                             exists ext pre,
                               In ext extensions /\
                               last rel EmptyString = (pre ++ ext)%string)).
    { split; intros (rel & E & Hf & He); exists rel;
        (split; [exact E|]); (split; [exact Hf|]);
        apply hasExtension_iff; exact He. }
    rewrite <- X. clear X. unfold getFilesRecursively.
    rewrite in_app_iff, filesIn_iff, in_flat_map. split.
    + intros [(n & -> & Hin & He)|(d & Hin & Hp)].
      * exists [n]. repeat split; auto. apply fileHere, Hin.
      * apply subFilesOf_iff in Hp.
        destruct Hp as (n & sub & rel & -> & -> & Hf & He).
        exists (n :: rel). repeat split.
        -- eapply fileBelow; eassumption.
        -- unfold hasExtension in *.
           rewrite last_cons_rel by (eapply fileAt_nonempty; eassumption).
           exact He.
    + intros (rel & -> & Hf & He).
      destruct Hf as [ds n Hin | ds sub n rel Hin Hf].
      * left. exists n. repeat split; auto.
      * right. exists (DirEntry n (Some sub)). split; [exact Hin|].
        apply subFilesOf_iff. exists n, sub, rel. repeat split; auto.
        unfold hasExtension in *.
        rewrite last_cons_rel in He by (eapply fileAt_nonempty; eassumption).
        exact He.
  - reflexivity.
  - unfold getFilesRecursively, filesIn.
    rewrite !filter_app, !flat_map_app. reflexivity.
Qed.

(** X15 (documentation contents). [loadDocumentation] returns the
    contents of the [.md] and [.mdx] files [getFilesRecursively] finds,
    leaving out the files that cannot be read and the empty ones: a text
    is returned exactly when it is not empty and is what reading one of
    these files gives. It returns nothing when the
    directory cannot be listed, and never more texts than files. *)
Theorem loadDocumentation_contents (readFileSync : Path -> option string)
        (basePath : Path) (listing : option (list Dirent))
        (content : string) :
  (In content (loadDocumentation readFileSync basePath listing) <->
   content <> EmptyString /\
   exists filePath,
     In filePath (getFilesRecursively basePath listing [".md"; ".mdx"]) /\
     readFileSync filePath = Some content) /\
  loadDocumentation readFileSync basePath None = [] /\
  length (loadDocumentation readFileSync basePath listing) <=
  length (getFilesRecursively basePath listing [".md"; ".mdx"]).
Proof using.
  split; [|split].
  - unfold loadDocumentation. rewrite filter_In, in_map_iff. split.
    + intros ((filePath & E & Hin) & Hn).
      assert (Hc : content <> EmptyString)
        by (intros ->; discriminate).
      split; [exact Hc|]. exists filePath. split; [exact Hin|].
      destruct (readFileSync filePath); congruence.
    + intros (Hc & filePath & Hin & E). split.
      * exists filePath. rewrite E. split; [reflexivity | exact Hin].
      * destruct content; [congruence | reflexivity].
  - reflexivity.
  - unfold loadDocumentation.
    etransitivity; [apply filter_length_le|]. rewrite length_map.
    apply le_n.
Qed.

End DocsProperties.

(** ** The source tag *)

Lemma orElse_truthy (a : option string) (b : string) :
  JS.truthy b = true -> JS.truthy (JS.orElse a b) = true.
Proof.
  intros Hb. unfold JS.orElse. destruct a as [s|]; [|exact Hb].
  destruct (JS.truthy s) eqn:E; [exact E | exact Hb].
Qed.

(** X13 (source tag). [CHAT_SOURCE] is never empty, whatever the host
    name and the configured URL are, so every message [sendMessage]
    stores carries a source. Without a window, a URL that starts with
    [http://] or [https://] gives what follows the scheme (and [api] when
    nothing follows); only that first scheme is cut. *)
Theorem chat_source_never_empty (window appUrl : option string)
        (host : string) (uuids : nat -> string) (s : Sys)
        (messageText : JS.text) :
  JS.truthy (Constants.CHAT_SOURCE window appUrl) = true /\
  Constants.CHAT_SOURCE None (Some ("http://" ++ host)%string)
  = JS.orElse (Some host) "api" /\
  Constants.CHAT_SOURCE None (Some ("https://" ++ host)%string)
  = JS.orElse (Some host) "api" /\
  Constants.CHAT_SOURCE None None = "api" /\
  (canSend (st s) messageText = true ->
   exists m,
     messages (st (exec (sendMessage (Constants.CHAT_SOURCE window appUrl)
                           uuids (st s) messageText) s))
     = messages (st s) ++ [m] /\
     msg_source m = Some (Constants.CHAT_SOURCE window appUrl)).
Proof.
  assert (P : prefix "" host = true) by (destruct host; reflexivity).
  split; [|split; [|split; [|split]]].
  - unfold Constants.CHAT_SOURCE. destruct window; apply orElse_truthy;
      reflexivity.
  - unfold Constants.CHAT_SOURCE. cbn [option_map]. f_equal. f_equal.
    cbn. rewrite P, Nat.sub_0_r. apply substring_all.
  - unfold Constants.CHAT_SOURCE. cbn [option_map]. f_equal. f_equal.
    cbn. rewrite P, Nat.sub_0_r. apply substring_all.
  - reflexivity.
  - intros C. unfold exec. rewrite (sendMessage_sent _ _ _ _ _ C). simpl.
    eexists. split; reflexivity.
Qed.

(** ** Further examples on the sample deployment *)

Lemma mounted_reachable :
  reachable Sample.agent Sample.source Sample.uuids Sample.roomOf
            Sample.mounted.
Proof. exists "", None, 0%N, []. vm_compute. reflexivity. Defined.

(** A later visit, with another query and another generator, finds the
    identity of the first. *)
Lemma identity_persistent_witness :
  userEntity
    (st (mount Sample.agent (fun _ => "never drawn") Sample.roomOf "docs"
               (storage Sample.connected) 5)) =
  userEntity (st Sample.connected).
Proof.
  refine (proj1 (proj2 (proj2 (proj2
            (identity_persistent Sample.agent Sample.source Sample.uuids
               (fun _ => "never drawn") Sample.roomOf Sample.connected
               MessageComplete "docs" 5%N connected_reachable _))))).
  vm_compute. reflexivity.
Defined.

Lemma room_id_follows_query_witness :
  roomId (st (Sample.step (Navigate "docs") Sample.connected)) =
  Chat.roomFor Sample.agent Sample.roomOf "docs"
               (userEntity (st Sample.connected)).
Proof.
  exact (proj2 (room_id_follows_query Sample.agent Sample.source
                  Sample.uuids Sample.roomOf Sample.connected "docs"
                  connected_reachable)).
Defined.

Lemma handlers_follow_session_witness :
  roomId Sample.attached = roomId (st Sample.connected) /\
  userEntity Sample.attached = userEntity (st Sample.connected).
Proof.
  refine ((fun H => conj (proj1 (proj2 (proj2 (proj2 H))))
                         (proj2 (proj2 (proj2 (proj2 H)))))
            (proj1 (handlers_follow_session Sample.agent Sample.source
                      Sample.uuids Sample.roomOf Sample.connected
                      connected_reachable) Sample.attached _)).
  vm_compute. reflexivity.
Defined.

Lemma joined_room_is_current_witness :
  if (if ConnectionStatus_dec (connectionStatus (st Sample.connected))
                              conn_connected
      then true else false)
     && JS.truthyOpt (roomId (st Sample.connected))
  then exists room,
      roomId (st Sample.connected) = Some room /\
      joinedRooms (socketCalls Sample.connected) = [room] /\
      joinedChannels (socketCalls Sample.connected) = [centralChannelId]
  else joinedRooms (socketCalls Sample.connected) = [] /\
       joinedChannels (socketCalls Sample.connected) = [].
Proof.
  exact (joined_room_is_current Sample.agent Sample.source Sample.uuids
           Sample.roomOf Sample.connected connected_reachable).
Defined.

(** The server disables the input: the next message is dropped. *)
Lemma control_message_locks_input_witness :
  let locked :=
    Sample.step (ControlMessage (mkControl "disable_input"))
                Sample.connected in
  Sample.step (SendMessage Sample.ping) locked = locked.
Proof.
  refine (proj2 (proj1 (control_message_locks_input Sample.agent
                          Sample.source Sample.uuids Sample.roomOf
                          Sample.connected Sample.attached
                          (mkControl "disable_input") Sample.ping _ _)
                   eq_refl));
    vm_compute; reflexivity.
Defined.

Lemma one_message_in_flight_witness :
  Sample.step (SendMessage (JS.lit "again")) Sample.waiting = Sample.waiting.
Proof.
  refine (proj1 (one_message_in_flight Sample.agent Sample.source
                   Sample.uuids Sample.roomOf Sample.connected
                   Sample.attached Sample.ping (JS.lit "again") _ _ _));
    vm_compute; reflexivity.
Defined.

(** Three seconds of polling a socket that stays down. *)
Lemma polling_never_gives_up_witness :
  let polling :=
    Sample.run [PingSettled (Some true); RegistrationSettled ResponseOk]
               Sample.mounted in
  st (Sample.run (polls 3) polling) = st polling.
Proof.
  refine (proj1 (polling_never_gives_up Sample.agent Sample.source
                   Sample.uuids Sample.roomOf
                   (Sample.run [PingSettled (Some true);
                                RegistrationSettled ResponseOk]
                               Sample.mounted) 3 _ _ _));
    vm_compute; reflexivity.
Defined.

Lemma failed_ping_blocks_connect_witness :
  serverStatus (st (Sample.step (PingSettled (Some false)) Sample.mounted))
  = server_offline.
Proof.
  refine (proj1 (failed_ping_blocks_connect Sample.agent Sample.source
                   Sample.uuids Sample.roomOf Sample.mounted (Some false)
                   MessageComplete _ mounted_reachable _)).
  - vm_compute. reflexivity.
  - discriminate.
Defined.

Lemma messages_append_only_witness :
  exists appended,
    messages (st (Sample.step (MessageBroadcast Sample.reply) Sample.waiting))
    = messages (st Sample.waiting) ++ appended.
Proof.
  refine (messages_append_only Sample.agent Sample.source Sample.uuids
            Sample.roomOf Sample.waiting (MessageBroadcast Sample.reply) _).
  discriminate.
Defined.

(** * The session key *)

Section SessionKeyProperties.

Import Sessions.

Variable toLowerCase : JS.text -> JS.text.

Lemma split_pieces (P : N -> Prop) (sep : N) (s : JS.text) :
  Forall P s ->
  Forall (Forall (fun c => P c /\ c <> sep)) (split sep s).
Proof using.
  induction 1 as [|c s Hc Hs IH]; simpl.
  - repeat constructor.
  - destruct (N.eqb_spec c sep) as [E|E].
    + constructor; [constructor | exact IH].
    + destruct (split sep s) as [|piece pieces].
      * repeat constructor; assumption.
      * inversion IH; subst. constructor; [|assumption].
        constructor; [split; assumption | assumption].
Qed.

Lemma Forall_firstn' {A} (P : A -> Prop) (n : nat) (l : list A) :
  Forall P l -> Forall P (firstn n l).
Proof using.
  revert l. induction n as [|n IH]; intros l H; simpl; [constructor|].
  destruct H; constructor; auto.
Qed.

Lemma join_chars (Q : N -> Prop) (sep : N) (pieces : list JS.text) :
  Forall (Forall Q) pieces ->
  Forall (fun c => c = sep \/ Q c) (join sep pieces).
Proof using.
  induction 1 as [|piece pieces Hp Hps IH]; simpl; [constructor|].
  assert (Hq : Forall (fun c => c = sep \/ Q c) piece)
    by (eapply Forall_impl; [|exact Hp]; auto).
  destruct pieces as [|next pieces]; [exact Hq|].
  apply Forall_app. split; [exact Hq|]. constructor; [left; reflexivity|].
  exact IH.
Qed.

Lemma count_none (sep : N) (piece : JS.text) :
  Forall (fun c => c <> sep) piece -> count_occ N.eq_dec piece sep = 0.
Proof using.
  induction 1 as [|c piece Hc Hp IH]; simpl; [reflexivity|].
  destruct (N.eq_dec c sep); [contradiction | exact IH].
Qed.

Lemma join_separators (sep : N) (pieces : list JS.text) :
  Forall (Forall (fun c => c <> sep)) pieces ->
  count_occ N.eq_dec (join sep pieces) sep = length pieces - 1.
Proof using.
  induction 1 as [|piece pieces Hp Hps IH]; simpl; [reflexivity|].
  destruct pieces as [|next pieces].
  - apply count_none, Hp.
  - rewrite count_occ_app, (count_none _ _ Hp). simpl count_occ at 1.
    destruct (N.eq_dec sep sep); [|congruence].
    simpl in IH |- *. rewrite IH. lia.
Qed.

(** X16 (session key). Whatever the content and whatever lower-casing does
    to it, the session key is never empty, holds no space, and is made of
    lower-case ASCII letters, digits, hyphens and white space other than
    the space; the hyphens are the separators between at most four words,
    so there are at most three of them. *)
Theorem sessionKey_shape (content : JS.text) :
  sessionKey toLowerCase content <> [] /\
  Forall (fun c => c = 45%N \/ isKeyChar c = true /\ c <> 32%N)
         (sessionKey toLowerCase content) /\
  count_occ N.eq_dec (sessionKey toLowerCase content) 45%N <= 3.
Proof.
  unfold sessionKey.
  set (cleaned := filter isKeyChar (toLowerCase content)).
  set (words := firstn 4 (split 32 cleaned)).
  assert (Hc : Forall (fun c => isKeyChar c = true) cleaned).
  { apply Forall_forall. intros c Hin. unfold cleaned in Hin.
    apply filter_In in Hin. apply Hin. }
  assert (Hw : Forall (Forall (fun c => isKeyChar c = true /\ c <> 32%N))
                      words)
    by (apply Forall_firstn', split_pieces, Hc).
  assert (Hn : Forall (Forall (fun c => c <> 45%N)) words).
  { eapply Forall_impl; [|exact Hw]. intros piece Hp.
    eapply Forall_impl; [|exact Hp]. intros c (Hk & _) ->. discriminate. }
  assert (Hl : length words <= 4) by apply firstn_le_length.
  destruct (JS.truthyText (join 45 words)) eqn:T.
  - split; [|split].
    + intros E. rewrite E in T. discriminate.
    + apply join_chars, Hw.
    + rewrite (join_separators _ _ Hn). lia.
  - split; [discriminate|]. split.
    + cbn [JS.lit N_of_ascii N_of_digits].
      repeat (apply Forall_cons;
              [right; split; [reflexivity | discriminate]|]).
      apply Forall_nil.
    + vm_compute. lia.
Qed.

End SessionKeyProperties.
